(** * office-wordcount: the counting engine, embedded and verified

    The development follows the layout of the package [word_count]:

    - [Unicode]    : code points and the character properties that the
                     patterns refer to ([\p{Script=..}], [\p{Block=..}],
                     [\p{Zs}], [\s]);
    - [Regex]      : the fragment of the [regex] library that the package
                     uses: character sets, the patterns [[set]] and
                     [[set]+], [finditer], [Match.group] and [sub];
    - [Patterns]   : patterns.py;
    - [Py]         : the Python built-ins that the package leans on;
    - [Statistics] : statistics.py;
    - [Counter]    : counter.py;
    - [Formatter]  : formatter.py;
    - [Cli]        : cli.py;
    - [Spec]       : the sets and the notion of maximal run, in the words
                     of the specification;
    - [Props]      : notions used to state the behaviour of the command
                     line.

    A Python [str] is a sequence of code points, so a text is a list of
    integers; Python integers are unbounded, so counts live in [Z]. *)

From Equations Require Import Equations.
From Stdlib Require Import ZArith List Bool Sorted Permutation Lia.
From Stdlib Require String Ascii DecimalString DecimalPos DecimalZ.
Import ListNotations.

Set Implicit Arguments.

(* ===================================================================== *)
(** * Unicode character properties                                        *)
(* ===================================================================== *)

Module Unicode.

Definition codepoint := Z.
Definition text := list codepoint.

Definition in_range (lo hi c : codepoint) : bool :=
  (lo <=? c)%Z && (c <=? hi)%Z.

Definition in_ranges (rs : list (codepoint * codepoint)) (c : codepoint) : bool :=
  existsb (fun r => in_range (fst r) (snd r) c) rs.

(** The scripts named in patterns.py. *)
Inductive script := Han | Hiragana | Katakana | Hangul | Bopomofo.

(** The blocks named in patterns.py, and the one block that its comment
    says is left out on purpose. *)
Inductive block :=
| Halfwidth_and_Fullwidth_Forms
| CJK_Symbols_and_Punctuation
| Enclosed_CJK_Letters_and_Months
| CJK_Compatibility
| CJK_Compatibility_Forms
| Vertical_Forms
| Kangxi_Radicals
| CJK_Radicals_Supplement
| Ideographic_Symbols_and_Punctuation
| Katakana_Phonetic_Extensions
| Enclosed_Alphanumerics.

(** Block extents (Blocks.txt).  A block is a fixed range of code points
    and is never changed once it has been allocated. *)
Definition block_range (b : block) : codepoint * codepoint :=
  match b with
  | Halfwidth_and_Fullwidth_Forms       => (0xFF00, 0xFFEF)
  | CJK_Symbols_and_Punctuation         => (0x3000, 0x303F)
  | Enclosed_CJK_Letters_and_Months     => (0x3200, 0x32FF)
  | CJK_Compatibility                   => (0x3300, 0x33FF)
  | CJK_Compatibility_Forms             => (0xFE30, 0xFE4F)
  | Vertical_Forms                      => (0xFE10, 0xFE1F)
  | Kangxi_Radicals                     => (0x2F00, 0x2FDF)
  | CJK_Radicals_Supplement             => (0x2E80, 0x2EFF)
  | Ideographic_Symbols_and_Punctuation => (0x16FE0, 0x16FFF)
  | Katakana_Phonetic_Extensions        => (0x31F0, 0x31FF)
  | Enclosed_Alphanumerics              => (0x2460, 0x24FF)
  end%Z.

Definition in_block (b : block) (c : codepoint) : bool :=
  in_range (fst (block_range b)) (snd (block_range b)) c.

(** General category Zs, space separators. *)
Definition Zs_ranges : list (codepoint * codepoint) :=
  [ (0x0020, 0x0020); (0x00A0, 0x00A0); (0x1680, 0x1680); (0x2000, 0x200A);
    (0x202F, 0x202F); (0x205F, 0x205F); (0x3000, 0x3000) ]%Z.

Definition is_Zs : codepoint -> bool := in_ranges Zs_ranges.

(** The property White_Space (PropList.txt).  The [regex] library
    resolves the escape [\s] of a [str] pattern to this property. *)
Definition White_Space_ranges : list (codepoint * codepoint) :=
  [ (0x0009, 0x000D); (0x0020, 0x0020); (0x0085, 0x0085); (0x00A0, 0x00A0);
    (0x1680, 0x1680); (0x2000, 0x200A); (0x2028, 0x2029); (0x202F, 0x202F);
    (0x205F, 0x205F); (0x3000, 0x3000) ]%Z.

Definition is_White_Space : codepoint -> bool := in_ranges White_Space_ranges.

(** The extent of a script grows with every release of the Unicode
    standard, and the table that the [regex] library ships is not part
    of the package.  The script lookup is therefore a parameter of the
    engine. *)
Class ScriptTable := { in_script : script -> codepoint -> bool }.

(** A code point that belongs to none of the five scripts. *)
Definition no_script `{ScriptTable} (c : codepoint) : Prop :=
  forall sc, in_script sc c = false.

(** Scripts.txt of Unicode 14.0, restricted to the five scripts. *)
Definition script_ranges (sc : script) : list (codepoint * codepoint) :=
  match sc with
  | Han =>
      [ (0x2E80, 0x2E99); (0x2E9B, 0x2EF3); (0x2F00, 0x2FD5); (0x3005, 0x3005);
        (0x3007, 0x3007); (0x3021, 0x3029); (0x3038, 0x303B); (0x3400, 0x4DBF);
        (0x4E00, 0x9FFF); (0xF900, 0xFA6D); (0xFA70, 0xFAD9); (0x16FE2, 0x16FE3);
        (0x16FF0, 0x16FF1); (0x20000, 0x2A6DF); (0x2A700, 0x2B738);
        (0x2B740, 0x2B81D); (0x2B820, 0x2CEA1); (0x2CEB0, 0x2EBE0);
        (0x2F800, 0x2FA1D); (0x30000, 0x3134A) ]
  | Hiragana =>
      [ (0x3041, 0x3096); (0x309D, 0x309F); (0x1B001, 0x1B11F);
        (0x1B150, 0x1B152); (0x1F200, 0x1F200) ]
  | Katakana =>
      [ (0x30A1, 0x30FA); (0x30FD, 0x30FF); (0x31F0, 0x31FF); (0x32D0, 0x32FE);
        (0x3300, 0x3357); (0xFF66, 0xFF6F); (0xFF71, 0xFF9D); (0x1AFF0, 0x1AFF3);
        (0x1AFF5, 0x1AFFB); (0x1AFFD, 0x1AFFE); (0x1B000, 0x1B000);
        (0x1B120, 0x1B122); (0x1B164, 0x1B167) ]
  | Hangul =>
      [ (0x1100, 0x11FF); (0x302E, 0x302F); (0x3131, 0x318E); (0x3200, 0x321E);
        (0x3260, 0x327E); (0xA960, 0xA97C); (0xAC00, 0xD7A3); (0xD7B0, 0xD7C6);
        (0xD7CB, 0xD7FB); (0xFFA0, 0xFFBE); (0xFFC2, 0xFFC7); (0xFFCA, 0xFFCF);
        (0xFFD2, 0xFFD7); (0xFFDA, 0xFFDC) ]
  | Bopomofo =>
      [ (0x02EA, 0x02EB); (0x3105, 0x312F); (0x31A0, 0x31BF) ]
  end%Z.

Definition unicode14 : ScriptTable :=
  {| in_script := fun sc => in_ranges (script_ranges sc) |}.

End Unicode.

Import Unicode.

(* ===================================================================== *)
(** * The Python built-ins that the package leans on                      *)
(* ===================================================================== *)

Module Py.
Import String Ascii.

(** A string literal of the source, as code points. *)
Definition lit (s : string) : text :=
  map (fun a => Z.of_nat (nat_of_ascii a)) (list_ascii_of_string s).

(** [str(n)] for an integer: decimal digits, with a minus sign when
    negative. *)
Definition str_int (n : Z) : text :=
  lit (DecimalString.NilZero.string_of_int (Z.to_int n)).

(** The exceptions that appear in the package, and one constructor for
    every other exception the platform may raise. *)
Inductive exn :=
| FileNotFoundError (filename : text)
| IsADirectoryError (filename : text)
| PermissionError (filename : text)
| UnicodeDecodeError (reason : text)
| KeyboardInterrupt
| BrokenPipeError
| ValueError
| IndexError
| OtherError (name : text).

(** A computation that returns or raises. *)
Definition result (A : Type) : Type := (exn + A)%type.

Definition ret {A} (a : A) : result A := inr a.

Definition bind {A B} (m : result A) (k : A -> result B) : result B :=
  match m with
  | inl e => inl e
  | inr a => k a
  end.

(** A comprehension whose body may raise: the first exception wins. *)
Fixpoint mapM {A B} (f : A -> result B) (l : list A) : result (list B) :=
  match l with
  | [] => ret []
  | x :: t =>
      bind (f x) (fun y => bind (mapM f t) (fun ys => ret (y :: ys)))
  end.

(** [l[i]] *)
Definition index {A} (l : list A) (i : nat) : result A :=
  match nth_error l i with
  | Some a => ret a
  | None => inl IndexError
  end.

(** [max(iterable)]: raises [ValueError] when the iterable is empty. *)
Definition max_of (l : list nat) : result nat :=
  match l with
  | [] => inl ValueError
  | x :: t => ret (fold_left Nat.max t x)
  end.

(** [zip(a, b, strict=True)], consumed to the end. *)
Fixpoint zip_strict {A B} (a : list A) (b : list B) : result (list (A * B)) :=
  match a, b with
  | [], [] => ret []
  | x :: a', y :: b' => bind (zip_strict a' b') (fun t => ret ((x, y) :: t))
  | _, _ => inl ValueError
  end.

(** [s.ljust(w)] *)
Definition ljust (s : text) (w : nat) : text :=
  s ++ repeat 32%Z (w - List.length s).

(** [sep.join(parts)] *)
Fixpoint join (sep : text) (parts : list text) : text :=
  match parts with
  | [] => []
  | [p] => p
  | p :: rest => p ++ sep ++ join sep rest
  end.

(** Equality of strings, for dictionary keys. *)
Fixpoint str_eqb (a b : text) : bool :=
  match a, b with
  | [], [] => true
  | x :: a', y :: b' => (x =? y)%Z && str_eqb a' b'
  | _, _ => false
  end.

(** The values that [json.dumps] is given. *)
#[warnings="-register-all"]
Inductive json :=
| JInt (n : Z)
| JStr (s : text)
| JArr (items : list json)
| JObj (members : list (text * json)).

(** A [dict] keeps its keys in insertion order; assigning to a key that
    is present replaces the value where it stands. *)
Definition dict (V : Type) : Type := list (text * V).

Fixpoint dict_set {V} (d : dict V) (k : text) (v : V) : dict V :=
  match d with
  | [] => [(k, v)]
  | (k', v') :: t =>
      if str_eqb k' k then (k', v) :: t else (k', v') :: dict_set t k v
  end.

Fixpoint dict_get {V} (d : dict V) (k : text) : option V :=
  match d with
  | [] => None
  | (k', v) :: t => if str_eqb k' k then Some v else dict_get t k
  end.

(** [{**d, **e}]: the items of [e] are assigned in order. *)
Definition dict_update {V} (d e : dict V) : dict V :=
  fold_left (fun acc kv => dict_set acc (fst kv) (snd kv)) e d.

End Py.

Import Py.

Declare Scope result_scope.
Delimit Scope result_scope with result.
Notation "x <- m ;; k" := (Py.bind m (fun x => k))
  (at level 61, m at next level, right associativity) : result_scope.

(* ===================================================================== *)
(** * The fragment of the regex library that the package uses             *)
(* ===================================================================== *)

Module Regex.

(** One member of a bracketed character set. *)
Inductive item :=
| Chr (c : codepoint)             (* a literal or escaped character *)
| Rng (lo hi : codepoint)         (* lo-hi *)
| PScript (sc : script)           (* \p{Script=sc} *)
| PBlock (b : block)              (* \p{Block=b} *)
| PZs                             (* \p{Zs} *)
| EscS.                           (* \s *)

(** [[items]] or, when [negated], [[^items]]. *)
Record cset := { negated : bool; items : list item }.

(** The two pattern shapes of patterns.py: [[set]] and [[set]+]. *)
Inductive pattern :=
| One (cs : cset)
| Plus (cs : cset).

(** The set behind a pattern. *)
Definition pattern_set (p : pattern) : cset :=
  match p with One cs => cs | Plus cs => cs end.

(** A match object: where the match starts and the text it covers. *)
Record Match := { start : nat; group : text }.

Definition end_ (m : Match) : nat := (start m + length (group m))%nat.

Section Engine.
Context `{ScriptTable}.

Definition item_matches (i : item) (c : codepoint) : bool :=
  match i with
  | Chr d => (c =? d)%Z
  | Rng lo hi => in_range lo hi c
  | PScript sc => in_script sc c
  | PBlock b => in_block b c
  | PZs => is_Zs c
  | EscS => is_White_Space c
  end.

Definition cset_matches (cs : cset) (c : codepoint) : bool :=
  xorb (negated cs) (existsb (fun i => item_matches i c) (items cs)).

(** Length of the longest prefix of [s] whose characters all satisfy [f]. *)
Fixpoint span_len (f : codepoint -> bool) (s : text) : nat :=
  match s with
  | [] => 0
  | c :: t => if f c then S (span_len f t) else 0
  end.

(** Length of the match of [p] that begins at the first character of
    [s]; 0 when there is none (neither shape matches the empty text).
    The quantifier [+] is greedy and nothing follows it, so it takes
    the whole run. *)
Definition match_len (p : pattern) (s : text) : nat :=
  match p with
  | One cs =>
      match s with
      | [] => 0
      | c :: _ => if cset_matches cs c then 1 else 0
      end
  | Plus cs => span_len (cset_matches cs) s
  end.

(** [finditer], scanning from offset [pos]: the matches from left to
    right, without overlap; after a match the scan resumes where the
    match ended, otherwise one character further. *)
Equations? finditer_from (p : pattern) (pos : nat) (s : text) : list Match
  by wf (length s) lt :=
  finditer_from p pos [] := [];
  finditer_from p pos (c :: t) with match_len p (c :: t) := {
    | 0 := finditer_from p (S pos) t;
    | S n := {| start := pos; group := c :: firstn n t |}
               :: finditer_from p (pos + S n) (skipn n t) }.
Proof.
  rewrite length_skipn. lia.
Qed.

Definition finditer (p : pattern) (s : text) : list Match :=
  finditer_from p 0 s.

(** [p.sub(repl, s)] for a replacement text without group references:
    every match is replaced by [repl], the rest is copied. *)
Equations? sub (p : pattern) (repl : text) (s : text) : text
  by wf (length s) lt :=
  sub p repl [] := [];
  sub p repl (c :: t) with match_len p (c :: t) := {
    | 0 := c :: sub p repl t;
    | S n := repl ++ sub p repl (skipn n t) }.
Proof.
  rewrite length_skipn. lia.
Qed.

End Engine.

End Regex.

Import Regex.

(* ===================================================================== *)
(** * patterns.py                                                         *)
(* ===================================================================== *)

Module Patterns.

(** [[\p{Zs}\t\n\r\f\v]+] *)
Definition SPACES : pattern :=
  Plus {| negated := false;
          items := [PZs; Chr 0x09; Chr 0x0A; Chr 0x0D; Chr 0x0C; Chr 0x0B]%Z |}.

(** [[\r\n]+] *)
Definition BREAKS : pattern :=
  Plus {| negated := false; items := [Chr 0x0D; Chr 0x0A]%Z |}.

(** The members of the Asian set, in the order of the source. *)
Definition ASIAN_PATTERN : list item :=
  [ PScript Han;
    PScript Hiragana;
    PScript Katakana;
    PScript Hangul;
    PScript Bopomofo;
    PBlock Halfwidth_and_Fullwidth_Forms;
    PBlock CJK_Symbols_and_Punctuation;
    PBlock Enclosed_CJK_Letters_and_Months;
    PBlock CJK_Compatibility;
    PBlock CJK_Compatibility_Forms;
    PBlock Vertical_Forms;
    PBlock Kangxi_Radicals;
    PBlock CJK_Radicals_Supplement;
    PBlock Ideographic_Symbols_and_Punctuation;
    PBlock Katakana_Phonetic_Extensions;
    Chr 0x30FB; Chr 0x30FC ]%Z.

(** [[\uFEFF\u200B\uFE00-\uFE0F\U000E0100-\U000E01EF]+] *)
Definition CHAR_EXCLUDES : pattern :=
  Plus {| negated := false;
          items := [Chr 0xFEFF; Chr 0x200B; Rng 0xFE00 0xFE0F;
                    Rng 0xE0100 0xE01EF]%Z |}.

(** [[\u2028\u2029]] *)
Definition UNICODE_SEPARATORS : pattern :=
  One {| negated := false; items := [Chr 0x2028; Chr 0x2029]%Z |}.

(** [[{ASIAN_PATTERN}]+] *)
Definition ASIANS : pattern :=
  Plus {| negated := false; items := ASIAN_PATTERN |}.

(** [[^{ASIAN_PATTERN}\s]+] *)
Definition NON_ASIAN_WORDS : pattern :=
  Plus {| negated := true; items := ASIAN_PATTERN ++ [EscS] |}.

End Patterns.

Import Patterns.

(* ===================================================================== *)
(** * statistics.py                                                       *)
(* ===================================================================== *)

Module Statistics.

(** The dataclass [Statistics]: five integer fields. *)
Record t := mk {
  words : Z;
  characters_no_space : Z;
  characters_with_space : Z;
  non_asian_words : Z;
  asian_characters : Z
}.

(** [Statistics.__add__] on values. *)
Definition add (self other : t) : t :=
  {| words := words self + words other;
     characters_no_space := characters_no_space self + characters_no_space other;
     characters_with_space :=
       characters_with_space self + characters_with_space other;
     non_asian_words := non_asian_words self + non_asian_words other;
     asian_characters := asian_characters self + asian_characters other |}%Z.

Definition zero : t := mk 0 0 0 0 0.

(** ** Instances as objects

    To speak about operands being left unchanged, instances live in a
    store; a reference is an index into it. *)

Definition store := list t.
Definition ref := nat.

Inductive field :=
| f_words | f_characters_no_space | f_characters_with_space
| f_non_asian_words | f_asian_characters.

Inductive exn := FrozenInstanceError | InvalidReference.

Definition deref (h : store) (r : ref) : option t := nth_error h r.

(** The constructor call [Statistics(...)]: a new object is allocated. *)
Definition new (h : store) (v : t) : store * ref := (h ++ [v], length h).

(** [self + other]: reads both operands, then constructs the result. *)
Definition add_obj (h : store) (self other : ref) : exn + store * ref :=
  match deref h self, deref h other with
  | Some a, Some b => inr (new h (add a b))
  | _, _ => inl InvalidReference
  end.

(** [obj.f = v].  The class is declared with [frozen=True], so the
    generated [__setattr__] raises for every field and stores nothing. *)
Definition setattr (h : store) (r : ref) (f : field) (v : Z) : exn + store :=
  match deref h r with
  | Some _ => inl FrozenInstanceError
  | None => inl InvalidReference
  end.

Import String.

(** [to_dict], that is [dataclasses.asdict]: the fields by name, in the
    order of their declaration. *)
Definition to_dict (self : t) : dict Z :=
  [ (lit "words", words self);
    (lit "characters_no_space", characters_no_space self);
    (lit "characters_with_space", characters_with_space self);
    (lit "non_asian_words", non_asian_words self);
    (lit "asian_characters", asian_characters self) ].

End Statistics.

(* ===================================================================== *)
(** * counter.py                                                          *)
(* ===================================================================== *)

Module Counter.

(** Python's [sum] of integers: a left fold from 0. *)
Definition sum (l : list Z) : Z := fold_left Z.add l 0%Z.

(** Python's [len]. *)
Definition len (s : text) : Z := Z.of_nat (length s).

Section WithTable.
Context `{ScriptTable}.

Definition count_words (text : text) : Z :=
  let asian_characters :=
    sum (map (fun m => len (group m)) (finditer ASIANS text)) in
  let non_asian_words :=
    sum (map (fun _ => 1%Z) (finditer NON_ASIAN_WORDS text)) in
  let separator_words :=
    sum (map (fun _ => 1%Z) (finditer UNICODE_SEPARATORS text)) in
  (non_asian_words + asian_characters + separator_words)%Z.

Definition count_characters (text : text) : Z :=
  let stripped := sub SPACES [] text in
  len (sub CHAR_EXCLUDES [] stripped).

Definition count_characters_with_space (text : text) : Z :=
  let stripped := sub BREAKS [] text in
  len (sub CHAR_EXCLUDES [] stripped).

Definition calculate_word_statistics (text : text) : Statistics.t :=
  let asian_characters :=
    sum (map (fun m => len (group m)) (finditer ASIANS text)) in
  let non_asian_words :=
    sum (map (fun _ => 1%Z) (finditer NON_ASIAN_WORDS text)) in
  let separator_words :=
    sum (map (fun _ => 1%Z) (finditer UNICODE_SEPARATORS text)) in
  {| Statistics.words :=
       (non_asian_words + asian_characters + separator_words)%Z;
     Statistics.characters_no_space := count_characters text;
     Statistics.characters_with_space := count_characters_with_space text;
     Statistics.non_asian_words := non_asian_words;
     Statistics.asian_characters := asian_characters |}.

End WithTable.

End Counter.

Import Counter.

(* ===================================================================== *)
(** * formatter.py                                                        *)
(* ===================================================================== *)

Module Formatter.
Import String.
Local Open Scope result_scope.

(** What [format_json] and [format_table] are given: one record, or a
    sequence of (file name, record) pairs. *)
Inductive stats_arg :=
| Single (stats : Statistics.t)
| Multiple (files : list (text * Statistics.t)).

Definition _is_multiple (stats : stats_arg) : bool :=
  match stats with
  | Single _ => false
  | Multiple _ => true
  end.

Definition json_of_dict (d : dict Z) : dict json :=
  map (fun kv => (fst kv, JInt (snd kv))) d.

(** The value that [format_json] hands to [json.dumps]. *)
Definition json_value (stats : stats_arg) (total : option Statistics.t) : json :=
  match stats with
  | Multiple files =>
      let result :=
        [ (lit "files",
           JArr (map (fun f =>
                        JObj (dict_update [(lit "file", JStr (fst f))]
                                (json_of_dict (Statistics.to_dict (snd f)))))
                     files)) ] in
      let result :=
        match total with
        | Some t =>
            dict_set result (lit "total")
              (JObj (json_of_dict (Statistics.to_dict t)))
        | None => result
        end in
      JObj result
  | Single s => JObj (json_of_dict (Statistics.to_dict s))
  end.

Section Dumps.
(** [json.dumps(value, indent=indent)] belongs to the standard library. *)
Variable dumps : json -> option Z -> text.

Definition format_json (stats : stats_arg) (total : option Statistics.t)
    (indent : option Z) : text :=
  dumps (json_value stats total) indent.

End Dumps.

Definition _format_single_table (stats : Statistics.t) : result text :=
  let labels :=
    [ (lit "Words", Statistics.words stats);
      (lit "Characters (no space)", Statistics.characters_no_space stats);
      (lit "Characters (with space)", Statistics.characters_with_space stats);
      (lit "Non-Asian words", Statistics.non_asian_words stats);
      (lit "Asian characters", Statistics.asian_characters stats) ] in
  max_label <- max_of (map (fun l => List.length (fst l)) labels) ;;
  let lines :=
    map (fun l => ljust (fst l) max_label ++ lit " : " ++ str_int (snd l))
        labels in
  ret (join (lit (String (Ascii.ascii_of_nat 10) EmptyString)) lines).

Definition headers : list text :=
  [ lit "File"; lit "Words"; lit "Chars"; lit "Chars+Space"; lit "Non-Asian";
    lit "Asian" ].

Definition table_row (name : text) (s : Statistics.t) : list text :=
  [ name;
    str_int (Statistics.words s);
    str_int (Statistics.characters_no_space s);
    str_int (Statistics.characters_with_space s);
    str_int (Statistics.non_asian_words s);
    str_int (Statistics.asian_characters s) ].

(** The rows of the table: one per file, then the total when given. *)
Definition table_rows (files : list (text * Statistics.t))
    (total : option Statistics.t) : list (list text) :=
  map (fun f => table_row (fst f) (snd f)) files
  ++ match total with
     | Some t => [table_row (lit "TOTAL") t]
     | None => []
     end.

(** The column widths. *)
Definition table_widths (rows : list (list text)) : result (list nat) :=
  mapM (fun i =>
          h <- Py.index headers i ;;
          cells <- mapM (fun row => c <- Py.index row i ;; ret (List.length c)) rows ;;
          m <- max_of cells ;;
          ret (Nat.max (List.length h) m))
       (seq 0 (List.length headers)).

(** One line of the table: the cells padded to the widths. *)
Definition table_line (cells : list text) (widths : list nat) : result text :=
  cols <- zip_strict cells widths ;;
  ret (join (lit " | ") (map (fun cw => ljust (fst cw) (snd cw)) cols)).

(** The lines of the table: header, rule, rows. *)
Definition table_lines (files : list (text * Statistics.t))
    (total : option Statistics.t) : result (list text) :=
  let rows := table_rows files total in
  widths <- table_widths rows ;;
  header_line <- table_line headers widths ;;
  let rule := join (lit "-+-") (map (fun w => repeat 45%Z w) widths) in
  row_lines <- mapM (fun row => table_line row widths) rows ;;
  ret (header_line :: rule :: row_lines).

Definition _format_multiple_table (files : list (text * Statistics.t))
    (total : option Statistics.t) : result text :=
  lines <- table_lines files total ;;
  ret (join (lit (String (Ascii.ascii_of_nat 10) EmptyString)) lines).

Definition format_table (stats : stats_arg) (total : option Statistics.t)
    : result text :=
  match stats with
  | Multiple files => _format_multiple_table files total
  | Single s => _format_single_table s
  end.

End Formatter.

(* ===================================================================== *)
(** * cli.py                                                              *)
(* ===================================================================== *)

Module Cli.
Import String.

(** What the command line needs from outside the package: [pathlib.Path],
    [str] of a path, and [json.dumps]. *)
Class Platform := {
  Path : Type;
  mkPath : text -> Path;
  path_str : Path -> text;
  dumps : json -> option Z -> text
}.

(** What a run finds: the outcome of reading each path as UTF-8 text, the
    outcome of reading standard input, whether standard output is a
    terminal. *)
Record World `{Platform} := {
  read_text : Path -> result text;
  stdin_read : result text;
  isatty : bool
}.

(** The parsed arguments. *)
Inductive format_choice := json_format | table_format | auto_format.

Record Namespace := {
  files : list text;
  format : format_choice;
  total : bool;
  words : bool;
  chars : bool;
  chars_with_space : bool;
  asian : bool;
  non_asian : bool
}.

(** The two output streams. *)
Record io := {
  stdout : text;
  stderr : text;
  stderr_closed : bool
}.

Definition io_empty : io := {| stdout := []; stderr := []; stderr_closed := false |}.

(** A computation that writes to the streams and returns or raises.
    Writing is taken to succeed: the exceptions of a run come from reading
    the input and from the formatter. *)
Definition M (A : Type) : Type := io -> io * result A.

Definition retM {A} (a : A) : M A := fun o => (o, inr a).

Definition bindM {A B} (m : M A) (k : A -> M B) : M B :=
  fun o =>
    match m o with
    | (o', inl e) => (o', inl e)
    | (o', inr a) => k a o'
    end.

Definition liftM {A} (r : result A) : M A := fun o => (o, r).

(** [try: body  except: handler] *)
Definition tryM {A} (body : M A) (handler : exn -> M A) : M A :=
  fun o =>
    match body o with
    | (o', inl e) => handler e o'
    | (o', inr a) => (o', inr a)
    end.

(** [print(s)] *)
Definition print (s : text) : M unit :=
  fun o => ({| stdout := stdout o ++ s ++ [10%Z]; stderr := stderr o;
               stderr_closed := stderr_closed o |}, inr tt).

(** [print(s, file=sys.stderr)] *)
Definition eprint (s : text) : M unit :=
  fun o => ({| stdout := stdout o; stderr := stderr o ++ s ++ [10%Z];
               stderr_closed := stderr_closed o |}, inr tt).

(** [sys.stderr.close()] *)
Definition close_stderr : M unit :=
  fun o => ({| stdout := stdout o; stderr := stderr o;
               stderr_closed := true |}, inr tt).

Section WithWorld.
Context `{ScriptTable} `{Platform}.
Variable w : World.

Definition read_stdin : result text := stdin_read w.

Definition read_file (path : Path) : result text := read_text w path.

(** The loop of [process_files], from the state it has reached. *)
Fixpoint process_files_loop (paths : list Path)
    (results : list (text * Statistics.t)) (total : Statistics.t)
    : result (list (text * Statistics.t) * Statistics.t) :=
  match paths with
  | [] => ret (results, total)
  | path :: rest =>
      Py.bind (read_file path) (fun text =>
        let stats := calculate_word_statistics text in
        process_files_loop rest (results ++ [(path_str path, stats)])
                           (Statistics.add total stats))
  end.

Definition process_files (paths : list Path)
    : result (list (text * Statistics.t) * Statistics.t) :=
  process_files_loop paths [] (Statistics.mk 0 0 0 0 0).

Definition get_single_value (stats : Statistics.t) (args : Namespace)
    : option Z :=
  if words args then Some (Statistics.words stats)
  else if chars args then Some (Statistics.characters_no_space stats)
  else if chars_with_space args then Some (Statistics.characters_with_space stats)
  else if non_asian args then Some (Statistics.non_asian_words stats)
  else if asian args then Some (Statistics.asian_characters stats)
  else None.

Definition _render_output (output_format : format_choice)
    (stats : Formatter.stats_arg) (total : option Statistics.t) : M unit :=
  match output_format with
  | json_format => print (Formatter.format_json dumps stats total (Some 2%Z))
  | _ => bindM (liftM (Formatter.format_table stats total)) print
  end.

(** Step 1 of [run], "normalize input": the per-file results and the
    total, from the files or from standard input. *)
Definition normalize_input (args : Namespace)
    : result (list (text * Statistics.t) * Statistics.t) :=
  match files args with
  | _ :: _ => process_files (map mkPath (files args))
  | [] =>
      Py.bind read_stdin (fun text =>
        let stats := calculate_word_statistics text in
        ret ([(lit "stdin", stats)], stats))
  end.

(** The body of the [try] statement of [run]; [None] stands for falling
    through to the final [return 0]. *)
Definition run_body (args : Namespace) (output_format : format_choice)
    : M (option Z) :=
  bindM (liftM (normalize_input args))
    (fun rt =>
       let results := fst rt in
       let total_stats := snd rt in
       bindM (if total args || (1 <? List.length results)%nat
              then retM total_stats
              else liftM (Py.bind (Py.index results 0) (fun r => ret (snd r))))
         (fun target_stats =>
            match get_single_value target_stats args with
            | Some single_value =>
                bindM (print (str_int single_value)) (fun _ => retM (Some 0%Z))
            | None =>
                bindM (if total args || (List.length results =? 1)%nat
                       then _render_output output_format
                              (Formatter.Single target_stats) None
                       else _render_output output_format
                              (Formatter.Multiple results) (Some total_stats))
                  (fun _ => retM None)
            end)).

(** [run(args)]: the exit code, or the exception that escapes. *)
Definition run (args : Namespace) : M Z :=
  let output_format :=
    match format args with
    | auto_format => if isatty w then table_format else json_format
    | f => f
    end in
  bindM
    (tryM (run_body args output_format)
       (fun e =>
          match e with
          | FileNotFoundError filename =>
              bindM (eprint (lit "Error: File not found: " ++ filename))
                (fun _ => retM (Some 1%Z))
          | IsADirectoryError filename =>
              bindM (eprint (lit "Error: Is a directory: " ++ filename))
                (fun _ => retM (Some 1%Z))
          | PermissionError filename =>
              bindM (eprint (lit "Error: Permission denied: " ++ filename))
                (fun _ => retM (Some 1%Z))
          | UnicodeDecodeError reason =>
              bindM (eprint (lit "Error: File is not valid UTF-8 text: " ++ reason))
                (fun _ => retM (Some 1%Z))
          | KeyboardInterrupt =>
              bindM (eprint (10%Z :: lit "Interrupted."))
                (fun _ => retM (Some 130%Z))
          | BrokenPipeError =>
              bindM close_stderr (fun _ => retM (Some 0%Z))
          | other => liftM (inl other)
          end))
    (fun returned =>
       match returned with
       | Some code => retM code
       | None => retM 0%Z
       end).

End WithWorld.

End Cli.

(* ===================================================================== *)
(** * The vocabulary of the specification                                 *)
(* ===================================================================== *)

Module Spec.

(** ** Maximal runs

    [g] is a maximal run of [f]-characters of [s], with [pre] before it
    and [post] after it: it is not empty, all of its characters satisfy
    [f], and it can be extended on neither side. *)

Definition starts_outside (f : codepoint -> bool) (s : text) : Prop :=
  match s with
  | [] => True
  | c :: _ => f c = false
  end.

Definition ends_outside (f : codepoint -> bool) (s : text) : Prop :=
  starts_outside f (rev s).

Record maximal_run (f : codepoint -> bool) (s pre g post : text) : Prop := {
  run_split : s = pre ++ g ++ post;
  run_nonempty : g <> [];
  run_inside : forallb f g = true;
  run_left : ends_outside f pre;
  run_right : starts_outside f post
}.

(** Number of [f]-characters of [s]. *)
Definition count_in (f : codepoint -> bool) (s : text) : Z :=
  Z.of_nat (length (filter f s)).

(** Number of positions of [s] at which a run of [f]-characters begins;
    [prev] tells whether the character before [s] satisfies [f]. *)
Fixpoint run_starts (f : codepoint -> bool) (prev : bool) (s : text) : nat :=
  match s with
  | [] => 0
  | c :: t => (if f c && negb prev then 1 else 0) + run_starts f (f c) t
  end.

Definition count_runs (f : codepoint -> bool) (s : text) : Z :=
  Z.of_nat (run_starts f false s).

(** ** Character sets, in the words of the specification *)

Definition asian_scripts : list script :=
  [Han; Hiragana; Katakana; Hangul; Bopomofo].

Definition asian_blocks : list block :=
  [ Halfwidth_and_Fullwidth_Forms; CJK_Symbols_and_Punctuation;
    Enclosed_CJK_Letters_and_Months; CJK_Compatibility;
    CJK_Compatibility_Forms; Vertical_Forms; Kangxi_Radicals;
    CJK_Radicals_Supplement; Ideographic_Symbols_and_Punctuation;
    Katakana_Phonetic_Extensions ].

(** Asian-script set: the five scripts, the ten blocks, U+30FB, U+30FC. *)
Definition asian_set `{ScriptTable} (c : codepoint) : bool :=
  existsb (fun sc => in_script sc c) asian_scripts
  || existsb (fun b => in_block b c) asian_blocks
  || (c =? 0x30FB)%Z || (c =? 0x30FC)%Z.

(** Whitespace set: category Zs, tab, newline, carriage return, form
    feed, vertical tab. *)
Definition whitespace_set (c : codepoint) : bool :=
  is_Zs c || (c =? 0x09)%Z || (c =? 0x0A)%Z || (c =? 0x0D)%Z
  || (c =? 0x0C)%Z || (c =? 0x0B)%Z.

(** Line-break set: carriage return and line feed. *)
Definition line_break_set (c : codepoint) : bool :=
  (c =? 0x0D)%Z || (c =? 0x0A)%Z.

(** Excluded marks: U+FEFF, U+200B, U+FE00-U+FE0F, U+E0100-U+E01EF. *)
Definition excluded_mark (c : codepoint) : bool :=
  (c =? 0xFEFF)%Z || (c =? 0x200B)%Z || in_range 0xFE00%Z 0xFE0F%Z c
  || in_range 0xE0100%Z 0xE01EF%Z c.

(** A character that survives the removal of the set [drop] and then of
    the excluded marks. *)
Definition kept (drop : codepoint -> bool) (c : codepoint) : bool :=
  negb (drop c) && negb (excluded_mark c).

(** Line and paragraph separators: U+2028, U+2029. *)
Definition separator (c : codepoint) : bool :=
  (c =? 0x2028)%Z || (c =? 0x2029)%Z.

(** A member of a non-Asian word, as the specification words it:
    neither in the Asian set nor in the whitespace set. *)
Definition spec_word_char `{ScriptTable} (c : codepoint) : bool :=
  negb (asian_set c) && negb (whitespace_set c).

(** A member of a non-Asian word, as the pattern has it: neither in the
    Asian set nor matched by [\s]. *)
Definition word_char `{ScriptTable} (c : codepoint) : bool :=
  negb (asian_set c) && negb (is_White_Space c).

(** [s[:i] + c + s[i:]] *)
Definition insert_at (i : nat) (c : codepoint) (s : text) : text :=
  firstn i s ++ c :: skipn i s.

(** Whether the last character of [s] satisfies [f]; [prev] when [s] is
    empty. *)
Definition last_in (f : codepoint -> bool) (prev : bool) (s : text) : bool :=
  match rev s with [] => prev | c :: _ => f c end.

(** Whether the first character of [s] satisfies [f]. *)
Definition head_in (f : codepoint -> bool) (s : text) : bool :=
  match s with [] => false | c :: _ => f c end.

(** Whether the character before or the character after position [i]
    of [s] satisfies [f]. *)
Definition touches (f : codepoint -> bool) (i : nat) (s : text) : bool :=
  last_in f false (firstn i s) || head_in f (skipn i s).

(** 1 when [b] holds, else 0. *)
Definition Z_of_bool (b : bool) : Z := if b then 1%Z else 0%Z.

End Spec.

Import Spec.

(* ===================================================================== *)
(** * Notions used to state the behaviour of the command line             *)
(* ===================================================================== *)

Module Props.
Import String.

(** The separator of the vertical table. *)
Definition colon : text := lit " : ".

(** The labels of the vertical table. *)
Definition single_labels : list text :=
  [ lit "Words"; lit "Characters (no space)"; lit "Characters (with space)";
    lit "Non-Asian words"; lit "Asian characters" ].

(** The five fields of a record, in the order of their declaration. *)
Definition field_values (s : Statistics.t) : list Z :=
  [ Statistics.words s; Statistics.characters_no_space s;
    Statistics.characters_with_space s; Statistics.non_asian_words s;
    Statistics.asian_characters s ].

(** 1 when a total is given, else 0. *)
Definition has_total (total : option Statistics.t) : nat :=
  match total with Some _ => 1 | None => 0 end.

(** The keys of the JSON output. *)
Definition files_key : text := lit "files".
Definition file_key : text := lit "file".
Definition total_key : text := lit "total".

(** The name under which standard input appears in the results. *)
Definition stdin_name : text := lit "stdin".

(** The exit code with which [run] answers an exception, when it has a
    handler for it. *)
Definition exit_code_of (e : exn) : option Z :=
  match e with
  | FileNotFoundError _ | IsADirectoryError _ | PermissionError _
  | UnicodeDecodeError _ => Some 1%Z
  | KeyboardInterrupt => Some 130%Z
  | BrokenPipeError => Some 0%Z
  | ValueError | IndexError | OtherError _ => None
  end.

(** Whether the handler of [run] for [e] writes a line to standard
    error. *)
Definition writes_error (e : exn) : bool :=
  match e with
  | FileNotFoundError _ | IsADirectoryError _ | PermissionError _
  | UnicodeDecodeError _ | KeyboardInterrupt => true
  | _ => false
  end.

(** The arguments with the flag [--total] set to [b]. *)
Definition with_total (b : bool) (args : Cli.Namespace) : Cli.Namespace :=
  {| Cli.files := Cli.files args; Cli.format := Cli.format args;
     Cli.total := b; Cli.words := Cli.words args; Cli.chars := Cli.chars args;
     Cli.chars_with_space := Cli.chars_with_space args;
     Cli.asian := Cli.asian args; Cli.non_asian := Cli.non_asian args |}.

(** The line feed. *)
Definition nl : text := [10%Z].

(** The characters of a rendered integer: the digits and the minus sign. *)
Definition int_char (c : codepoint) : bool :=
  (c =? 45)%Z || ((48 <=? c)%Z && (c <=? 57)%Z).

(** A platform for examples: paths are their own names and the JSON
    writer renders integers only. *)
Definition plain_platform : Cli.Platform :=
  {| Cli.Path := text; Cli.mkPath := fun f => f; Cli.path_str := fun p => p;
     Cli.dumps := fun v _ => match v with JInt n => str_int n | _ => [] end |}.

(** A world for examples, on the plain platform: the file named
    "missing" does not exist, every other file holds its own name as
    text; standard input holds "one two" and output is piped. *)
Definition echo_world : @Cli.World plain_platform :=
  {| Cli.read_text := fun p : @Cli.Path plain_platform =>
       if str_eqb p (lit "missing") then inl (FileNotFoundError p) else inr p;
     Cli.stdin_read := inr (lit "one two");
     Cli.isatty := false |}.

(** Three file names for examples. *)
Definition name_ab : text := lit "a b".
Definition name_c : text := lit "c".
Definition name_missing : text := lit "missing".

(** Arguments that name the given files and set no option. *)
Definition plain_args (fs : list text) : Cli.Namespace :=
  {| Cli.files := fs; Cli.format := Cli.auto_format; Cli.total := false;
     Cli.words := false; Cli.chars := false; Cli.chars_with_space := false;
     Cli.asian := false; Cli.non_asian := false |}.

(** Reading one file and counting it, as one step of [process_files]. *)
Definition file_result `{ScriptTable} `{Cli.Platform} (w : Cli.World)
    (path : Cli.Path) : result (text * Statistics.t) :=
  Py.bind (Cli.read_file w path) (fun t =>
    ret (Cli.path_str path, calculate_word_statistics t)).

(** The streams after one more line on standard output. *)
Definition printed (o : Cli.io) (line : text) : Cli.io :=
  {| Cli.stdout := Cli.stdout o ++ line ++ nl; Cli.stderr := Cli.stderr o;
     Cli.stderr_closed := Cli.stderr_closed o |}.

End Props.

Import Props.

(* ===================================================================== *)
(** * Properties of the regex fragment                                    *)
(* ===================================================================== *)

Lemma text_length_ind (P : text -> Prop) :
  (forall s, (forall s', (length s' < length s)%nat -> P s') -> P s) ->
  forall s, P s.
Proof.
  intros step s.
  induction s as [s IH] using (well_founded_induction
                                 (Wf_nat.well_founded_ltof _ (@length codepoint))).
  apply step. exact IH.
Qed.

Lemma sum_fold_shift (l : list Z) (a : Z) :
  fold_left Z.add l a = (a + fold_left Z.add l 0)%Z.
Proof.
  revert a. induction l as [|x l IH]; intros a; simpl.
  - lia.
  - rewrite IH, (IH x). lia.
Qed.

Lemma sum_cons (x : Z) (l : list Z) : sum (x :: l) = (x + sum l)%Z.
Proof. unfold sum. simpl. apply sum_fold_shift. Qed.

Lemma sum_ones (A : Type) (l : list A) :
  sum (map (fun _ => 1%Z) l) = Z.of_nat (length l).
Proof.
  induction l as [|x l IH].
  - reflexivity.
  - cbn [map length]. rewrite sum_cons, IH. lia.
Qed.

Lemma sum_group_lengths (ms : list Match) :
  sum (map (fun m => len (group m)) ms) = len (concat (map group ms)).
Proof.
  induction ms as [|m ms IH].
  - reflexivity.
  - cbn [map concat]. rewrite sum_cons, IH. unfold len.
    rewrite length_app. lia.
Qed.

Section SpanFacts.
Variable f : codepoint -> bool.

Lemma span_len_le (s : text) : (span_len f s <= length s)%nat.
Proof.
  induction s as [|c t IH]; simpl; [lia|]. destruct (f c); simpl; lia.
Qed.

Lemma span_inside (s : text) : forallb f (firstn (span_len f s) s) = true.
Proof.
  induction s as [|c t IH]; simpl; [reflexivity|].
  destruct (f c) eqn:E; simpl; [rewrite E; exact IH | reflexivity].
Qed.

Lemma span_right (s : text) : starts_outside f (skipn (span_len f s) s).
Proof.
  induction s as [|c t IH]; simpl; [exact I|].
  destruct (f c) eqn:E; simpl; [exact IH | exact E].
Qed.

Lemma span_filter (s : text) :
  filter f s = firstn (span_len f s) s ++ filter f (skipn (span_len f s) s).
Proof.
  induction s as [|c t IH]; simpl; [reflexivity|].
  destruct (f c) eqn:E; simpl; rewrite ?E; [f_equal; exact IH | reflexivity].
Qed.

Lemma span_filter_neg (s : text) :
  filter (fun c => negb (f c)) s
  = filter (fun c => negb (f c)) (skipn (span_len f s) s).
Proof.
  induction s as [|c t IH]; simpl; [reflexivity|].
  destruct (f c) eqn:E; simpl; rewrite ?E; [exact IH | reflexivity].
Qed.

Lemma span_run_starts (s : text) :
  run_starts f true s = run_starts f false (skipn (span_len f s) s).
Proof.
  induction s as [|c t IH]; simpl; [reflexivity|].
  destruct (f c) eqn:E; simpl; rewrite ?E; simpl; [exact IH | reflexivity].
Qed.

(** A run that cannot be extended to the right is the longest prefix. *)
Lemma span_unique (g post : text) :
  forallb f g = true -> starts_outside f post ->
  span_len f (g ++ post) = length g.
Proof.
  intros Hg Hpost. induction g as [|c g IH]; simpl in *.
  - destruct post as [|d post]; simpl in *; [reflexivity | now rewrite Hpost].
  - apply andb_prop in Hg as [Hc Hg]. rewrite Hc. f_equal. now apply IH.
Qed.
End SpanFacts.

Section EngineFacts.
Context `{ScriptTable}.

Lemma finditer_from_cons (p : pattern) (pos : nat) (c : codepoint) (t : text) :
  finditer_from p pos (c :: t)
  = match match_len p (c :: t) with
    | O => finditer_from p (S pos) t
    | S n => {| start := pos; group := c :: firstn n t |}
               :: finditer_from p (pos + S n) (skipn n t)
    end.
Proof.
  simp finditer_from. destruct (match_len p (c :: t)); reflexivity.
Qed.

Lemma sub_cons (p : pattern) (repl : text) (c : codepoint) (t : text) :
  sub p repl (c :: t)
  = match match_len p (c :: t) with
    | O => c :: sub p repl t
    | S n => repl ++ sub p repl (skipn n t)
    end.
Proof.
  simp sub. destruct (match_len p (c :: t)); reflexivity.
Qed.

(** The scan with [[set]+], one step. *)
Lemma finditer_plus_miss cs pos c t :
  cset_matches cs c = false ->
  finditer_from (Plus cs) pos (c :: t) = finditer_from (Plus cs) (S pos) t.
Proof.
  intros E. rewrite finditer_from_cons. simpl. now rewrite E.
Qed.

Lemma finditer_plus_hit cs pos c t :
  cset_matches cs c = true ->
  let n := span_len (cset_matches cs) t in
  finditer_from (Plus cs) pos (c :: t)
  = {| start := pos; group := c :: firstn n t |}
      :: finditer_from (Plus cs) (pos + S n) (skipn n t).
Proof.
  intros E n. rewrite finditer_from_cons. simpl. now rewrite E.
Qed.

(** The groups of the matches of [[set]+] are, put end to end, the
    characters of the set, in order. *)
Lemma finditer_plus_concat cs s pos :
  concat (map group (finditer_from (Plus cs) pos s))
  = filter (cset_matches cs) s.
Proof.
  revert pos. induction s as [s IH] using text_length_ind. intros pos.
  destruct s as [|c t]; [now simp finditer_from|].
  destruct (cset_matches cs c) eqn:E.
  - rewrite finditer_plus_hit by exact E. cbn [map concat group filter].
    rewrite E, IH by (rewrite length_skipn; simpl; lia).
    simpl. f_equal. symmetry. apply span_filter.
  - rewrite finditer_plus_miss by exact E. cbn [filter]. rewrite E.
    apply IH. simpl. lia.
Qed.

(** There are as many matches of [[set]+] as there are run starts. *)
Lemma finditer_plus_length cs s pos :
  length (finditer_from (Plus cs) pos s)
  = run_starts (cset_matches cs) false s.
Proof.
  revert pos. induction s as [s IH] using text_length_ind. intros pos.
  destruct s as [|c t]; [now simp finditer_from|].
  destruct (cset_matches cs c) eqn:E.
  - rewrite finditer_plus_hit by exact E. cbn [length run_starts].
    rewrite E, IH by (rewrite length_skipn; simpl; lia).
    simpl. f_equal. symmetry. apply span_run_starts.
  - rewrite finditer_plus_miss by exact E. cbn [run_starts]. rewrite E.
    simpl. apply IH. simpl. lia.
Qed.

(** There are as many matches of [[set]] as characters of the set. *)
Lemma finditer_one_length cs s pos :
  length (finditer_from (One cs) pos s)
  = length (filter (cset_matches cs) s).
Proof.
  revert pos. induction s as [|c t IH]; intros pos; [now simp finditer_from|].
  rewrite finditer_from_cons. simpl.
  destruct (cset_matches cs c); simpl; now rewrite IH.
Qed.

(** Replacing the matches of [[set]+] by nothing removes exactly the
    characters of the set. *)
Lemma sub_plus_empty cs s :
  sub (Plus cs) [] s = filter (fun c => negb (cset_matches cs c)) s.
Proof.
  induction s as [s IH] using text_length_ind.
  destruct s as [|c t]; [now simp sub|].
  rewrite sub_cons. simpl. destruct (cset_matches cs c) eqn:E; simpl.
  - rewrite IH by (rewrite length_skipn; simpl; lia).
    symmetry. apply span_filter_neg.
  - f_equal. apply IH. simpl. lia.
Qed.

End EngineFacts.

(** ** The matches of [[set]+] are the maximal runs *)

Lemma app_eq_app_le (A : Type) (p0 s p r : list A) :
  p0 ++ s = p ++ r -> (length p0 <= length p)%nat ->
  exists d, p = p0 ++ d /\ s = d ++ r.
Proof.
  revert p. induction p0 as [|x p0 IH]; intros p E L.
  - exists p. split; [reflexivity | exact E].
  - destruct p as [|y p]; simpl in *; [lia|].
    injection E as -> E. destruct (IH p E) as (d & -> & ->); [lia|].
    exists d. split; reflexivity.
Qed.

Lemma prefix_inside (f : codepoint -> bool) (s : text) (k : nat) :
  (k <= span_len f s)%nat -> forallb f (firstn k s) = true.
Proof.
  revert k. induction s as [|c t IH]; intros k L; simpl in *.
  - now rewrite firstn_nil.
  - destruct k as [|k]; [reflexivity|]. simpl.
    destruct (f c); [apply IH; lia | lia].
Qed.

Lemma inside_not_ends_outside (f : codepoint -> bool) (p d : text) :
  d <> [] -> forallb f d = true -> ends_outside f (p ++ d) -> False.
Proof.
  intros Hd Hf Ho. destruct (exists_last Hd) as (d' & x & ->).
  unfold ends_outside in Ho. rewrite !rev_app_distr in Ho. simpl in Ho.
  rewrite forallb_app in Hf. simpl in Hf. rewrite Ho in Hf.
  now rewrite andb_false_r in Hf.
Qed.

Section RunFacts.
Context `{ScriptTable}.
Variable cs : cset.
Let f := cset_matches cs.

Lemma finditer_plus_lower s pos :
  Forall (fun m => (pos <= start m)%nat) (finditer_from (Plus cs) pos s).
Proof.
  revert pos. induction s as [s IH] using text_length_ind. intros pos.
  destruct s as [|c t]; [simp finditer_from; constructor|].
  destruct (cset_matches cs c) eqn:E.
  - rewrite finditer_plus_hit by exact E. constructor; [simpl; lia|].
    eapply Forall_impl; [|apply IH; rewrite length_skipn; simpl; lia].
    simpl. intros; lia.
  - rewrite finditer_plus_miss by exact E.
    eapply Forall_impl; [|apply IH; simpl; lia]. simpl. intros; lia.
Qed.

Lemma finditer_plus_after_gap s pos :
  starts_outside f s ->
  Forall (fun m => (pos < start m)%nat) (finditer_from (Plus cs) pos s).
Proof.
  destruct s as [|c t]; intros Ho; [simp finditer_from; constructor|].
  simpl in Ho. rewrite finditer_plus_miss by exact Ho.
  eapply Forall_impl; [|apply finditer_plus_lower]. simpl. intros; lia.
Qed.

(** Matches come in order and a gap separates each from the next. *)
Lemma finditer_plus_sorted s pos :
  StronglySorted (fun a b => (end_ a < start b)%nat)
                 (finditer_from (Plus cs) pos s).
Proof.
  revert pos. induction s as [s IH] using text_length_ind. intros pos.
  destruct s as [|c t]; [simp finditer_from; constructor|].
  destruct (cset_matches cs c) eqn:E.
  - rewrite finditer_plus_hit by exact E. constructor.
    + apply IH. rewrite length_skipn. simpl. lia.
    + unfold end_. cbn [start group length].
      rewrite firstn_length_le by apply span_len_le.
      apply finditer_plus_after_gap. apply span_right.
  - rewrite finditer_plus_miss by exact E. apply IH. simpl. lia.
Qed.

Lemma finditer_plus_runs_from s pre0 m :
  ends_outside f pre0 \/ starts_outside f s ->
  In m (finditer_from (Plus cs) (length pre0) s)
  <-> exists pre post,
        start m = length pre /\ (length pre0 <= length pre)%nat /\
        maximal_run f (pre0 ++ s) pre (group m) post.
Proof.
  revert pre0. induction s as [s IH] using text_length_ind. intros pre0 B.
  destruct s as [|c t].
  - simp finditer_from. split; [intros []|].
    intros (pre & post & _ & L & [E N _ _ _]). apply N.
    apply (f_equal (@length _)) in E. rewrite !length_app in E. simpl in E.
    apply length_zero_iff_nil. lia.
  - destruct (cset_matches cs c) eqn:E.
    + (* a match begins here *)
      rewrite finditer_plus_hit by exact E. cbv zeta.
      set (n := span_len (cset_matches cs) t).
      assert (Ln : length (pre0 ++ c :: firstn n t) = (length pre0 + S n)%nat).
      { rewrite length_app. simpl. rewrite firstn_length_le by apply span_len_le.
        reflexivity. }
      assert (Et : (pre0 ++ c :: firstn n t) ++ skipn n t = pre0 ++ c :: t).
      { rewrite <- app_assoc. simpl. now rewrite firstn_skipn. }
      specialize (IH (skipn n t)). rewrite <- Ln.
      rewrite length_skipn in IH. specialize (IH ltac:(simpl; lia)).
      specialize (IH (pre0 ++ c :: firstn n t) (or_intror (span_right f t))).
      rewrite Et in IH. simpl. rewrite IH. clear IH. split.
      * intros [<- | (pre & post & Hs & L & R)].
        -- exists pre0, (skipn n t). simpl. repeat split; try lia.
           ++ simpl. now rewrite firstn_skipn.
           ++ discriminate.
           ++ simpl. fold f. unfold f at 1. rewrite E. apply span_inside.
           ++ destruct B as [B|B]; [exact B|]. simpl in B. unfold f in B. congruence.
           ++ apply span_right.
        -- exists pre, post. repeat split; try apply R; try assumption.
           rewrite Ln in L. lia.
      * intros (pre & post & Hs & L & R).
        destruct (app_eq_app_le _ _ _ _ (run_split R) L) as (d & -> & Ed).
        destruct d as [|x d].
        -- left. simpl in Ed. rewrite app_nil_r in Hs.
           pose proof (span_unique f _ _ (run_inside R) (run_right R)) as U.
           rewrite <- Ed in U. simpl in U. fold f in E. rewrite E in U.
           destruct m as [st g]. simpl in *. subst st. f_equal.
           assert (G : g = firstn (length g) (g ++ post))
             by (now rewrite firstn_app, Nat.sub_diag, firstn_all, firstn_O, app_nil_r).
           rewrite <- Ed, <- U in G. simpl in G. fold n in G. fold f in G.
           unfold f in G. fold n in G. now symmetry.
        -- right. exists (pre0 ++ x :: d), post. repeat split; try apply R; try assumption.
           rewrite Ln, length_app. apply Nat.add_le_mono_l.
           destruct (Nat.le_gt_cases (length (x :: d)) (S n)) as [Le|Gt]; [|lia].
           exfalso. apply (inside_not_ends_outside f pre0 (d := x :: d)).
           ++ discriminate.
           ++ replace (x :: d) with (firstn (length (x :: d)) (c :: t))
                by (rewrite Ed, firstn_app, Nat.sub_diag, firstn_all, firstn_O;
                    apply app_nil_r).
              apply prefix_inside. simpl span_len. fold f in E. rewrite E. exact Le.
           ++ apply R.
    + (* no match begins here *)
      rewrite finditer_plus_miss by exact E.
      specialize (IH t ltac:(simpl; lia) (pre0 ++ [c])).
      rewrite length_app, Nat.add_1_r, <- app_assoc in IH. simpl in IH.
      rewrite IH; clear IH.
      2:{ left. unfold ends_outside. rewrite rev_app_distr. simpl. exact E. }
      split; intros (pre & post & Hs & L & R); exists pre, post;
        repeat split; try apply R; try assumption; try lia.
      destruct (Nat.eq_dec (length pre) (length pre0)) as [Eq|]; [|lia].
      exfalso.
      destruct (app_eq_app_le _ _ _ _ (run_split R) L) as (d & -> & Ed).
      rewrite length_app in Eq. destruct d as [|x d]; [|simpl in Eq; lia].
      simpl in Ed. pose proof (run_inside R) as I. pose proof (run_nonempty R) as N.
      destruct (group m) as [|y g]; [now apply N|].
      simpl in Ed. injection Ed as <- _. simpl in I. unfold f in I.
      rewrite E in I. discriminate.
Qed.

End RunFacts.

(* ===================================================================== *)
(** * The patterns and the sets of the specification                      *)
(* ===================================================================== *)

Ltac unfold_sets :=
  unfold whitespace_set, line_break_set, excluded_mark, separator,
    word_char, spec_word_char, asian_set, cset_matches, pattern_set,
    SPACES, BREAKS, CHAR_EXCLUDES, UNICODE_SEPARATORS, ASIANS,
    NON_ASIAN_WORDS, ASIAN_PATTERN, asian_scripts, asian_blocks in *;
  cbn [existsb item_matches negated items app xorb] in *.

Section PatternSets.
Context `{ScriptTable}.

Lemma SPACES_set c : cset_matches (pattern_set SPACES) c = whitespace_set c.
Proof. unfold_sets. now rewrite orb_false_r, !orb_assoc. Qed.

Lemma BREAKS_set c : cset_matches (pattern_set BREAKS) c = line_break_set c.
Proof. unfold_sets. now rewrite orb_false_r. Qed.

Lemma CHAR_EXCLUDES_set c :
  cset_matches (pattern_set CHAR_EXCLUDES) c = excluded_mark c.
Proof. unfold_sets. now rewrite orb_false_r, !orb_assoc. Qed.

Lemma UNICODE_SEPARATORS_set c :
  cset_matches (pattern_set UNICODE_SEPARATORS) c = separator c.
Proof. unfold_sets. now rewrite orb_false_r. Qed.

Lemma ASIANS_set c : cset_matches (pattern_set ASIANS) c = asian_set c.
Proof. unfold_sets. now rewrite !orb_false_r, !orb_assoc. Qed.

Lemma NON_ASIAN_WORDS_set c :
  cset_matches (pattern_set NON_ASIAN_WORDS) c = word_char c.
Proof.
  pose proof (ASIANS_set c) as A. unfold_sets.
  rewrite <- negb_orb. rewrite <- A. rewrite !orb_false_r, !orb_assoc.
  reflexivity.
Qed.

End PatternSets.

(* ===================================================================== *)
(** * What counter.py computes, in terms of the sets                      *)
(* ===================================================================== *)

Lemma run_starts_ext (f g : codepoint -> bool) (s : text) (prev : bool) :
  (forall c, In c s -> f c = g c) -> run_starts f prev s = run_starts g prev s.
Proof.
  revert prev. induction s as [|c t IH]; intros prev E; simpl; [reflexivity|].
  rewrite (E c) by now left. f_equal. apply IH. intros d Hd. apply E. now right.
Qed.

Lemma maximal_run_ext (f g : codepoint -> bool) (s pre r post : text) :
  (forall c, f c = g c) -> maximal_run f s pre r post -> maximal_run g s pre r post.
Proof.
  intros E [S N I L R]. split; try assumption.
  - rewrite <- I. clear -E. induction r as [|c r IH]; simpl; [reflexivity|].
    now rewrite IH, E.
  - unfold ends_outside, starts_outside in *. destruct (rev pre); [exact Logic.I|].
    now rewrite <- E.
  - unfold starts_outside in *. destruct post; [exact Logic.I|]. now rewrite <- E.
Qed.

Section CounterFacts.
Context `{ScriptTable}.

Lemma plus_run_count cs (f : codepoint -> bool) s :
  (forall c, cset_matches cs c = f c) ->
  sum (map (fun _ => 1%Z) (finditer (Plus cs) s)) = count_runs f s.
Proof.
  intros E. rewrite sum_ones. unfold finditer, count_runs.
  rewrite finditer_plus_length. f_equal. apply run_starts_ext. auto.
Qed.

Lemma plus_char_count cs (f : codepoint -> bool) s :
  (forall c, cset_matches cs c = f c) ->
  sum (map (fun m => len (group m)) (finditer (Plus cs) s)) = count_in f s.
Proof.
  intros E. rewrite sum_group_lengths. unfold finditer, count_in, len.
  rewrite finditer_plus_concat. do 2 f_equal. now apply filter_ext.
Qed.

Lemma one_count cs (f : codepoint -> bool) s :
  (forall c, cset_matches cs c = f c) ->
  sum (map (fun _ => 1%Z) (finditer (One cs) s)) = count_in f s.
Proof.
  intros E. rewrite sum_ones. unfold finditer, count_in.
  rewrite finditer_one_length. do 2 f_equal. now apply filter_ext.
Qed.

Lemma plus_sub_empty cs (f : codepoint -> bool) s :
  (forall c, cset_matches cs c = f c) ->
  sub (Plus cs) [] s = filter (fun c => negb (f c)) s.
Proof.
  intros E. rewrite sub_plus_empty. apply filter_ext. intros c. now rewrite E.
Qed.

Lemma plus_runs cs (f : codepoint -> bool) s m :
  (forall c, cset_matches cs c = f c) ->
  In m (finditer (Plus cs) s)
  <-> exists pre post, start m = length pre /\ maximal_run f s pre (group m) post.
Proof.
  intros E. unfold finditer.
  rewrite (finditer_plus_runs_from cs s [] m) by (left; exact I).
  split; intros (pre & post & Hs & R); exists pre, post.
  - split; [exact Hs|]. apply maximal_run_ext with (f := cset_matches cs); tauto.
  - split; [exact Hs|]. split; [simpl; lia|].
    apply maximal_run_ext with (f := f); auto.
Qed.

Lemma asian_characters_eq s :
  Statistics.asian_characters (calculate_word_statistics s) = count_in asian_set s.
Proof. apply plus_char_count. exact ASIANS_set. Qed.

Lemma non_asian_words_eq s :
  Statistics.non_asian_words (calculate_word_statistics s) = count_runs word_char s.
Proof. apply plus_run_count. exact NON_ASIAN_WORDS_set. Qed.

Lemma words_eq s :
  Statistics.words (calculate_word_statistics s)
  = (count_runs word_char s + count_in asian_set s + count_in separator s)%Z.
Proof.
  pose proof (asian_characters_eq s) as A. pose proof (non_asian_words_eq s) as W.
  cbn [calculate_word_statistics Statistics.words Statistics.asian_characters
       Statistics.non_asian_words] in *.
  rewrite A, W. f_equal. apply one_count. exact UNICODE_SEPARATORS_set.
Qed.

Lemma count_words_eq s :
  count_words s
  = (count_runs word_char s + count_in asian_set s + count_in separator s)%Z.
Proof. exact (words_eq s). Qed.

Lemma count_characters_eq s :
  count_characters s = count_in (kept whitespace_set) s.
Proof.
  unfold count_characters, SPACES, CHAR_EXCLUDES.
  rewrite (plus_sub_empty (pattern_set SPACES) whitespace_set _ SPACES_set).
  rewrite (plus_sub_empty (pattern_set CHAR_EXCLUDES) excluded_mark _
             CHAR_EXCLUDES_set).
  unfold count_in, len, kept. do 2 f_equal.
  induction s as [|c t IH]; simpl; [reflexivity|].
  destruct (whitespace_set c); simpl; [exact IH|].
  destruct (excluded_mark c); simpl; [exact IH | now rewrite IH].
Qed.

Lemma count_characters_with_space_eq s :
  count_characters_with_space s = count_in (kept line_break_set) s.
Proof.
  unfold count_characters_with_space, BREAKS, CHAR_EXCLUDES.
  rewrite (plus_sub_empty (pattern_set BREAKS) line_break_set _ BREAKS_set).
  rewrite (plus_sub_empty (pattern_set CHAR_EXCLUDES) excluded_mark _
             CHAR_EXCLUDES_set).
  unfold count_in, len, kept. do 2 f_equal.
  induction s as [|c t IH]; simpl; [reflexivity|].
  destruct (line_break_set c); simpl; [exact IH|].
  destruct (excluded_mark c); simpl; [exact IH | now rewrite IH].
Qed.

End CounterFacts.

(* ===================================================================== *)
(** * Counting lemmas                                                     *)
(* ===================================================================== *)

Lemma count_in_app f s1 s2 :
  count_in f (s1 ++ s2) = (count_in f s1 + count_in f s2)%Z.
Proof. unfold count_in. rewrite filter_app, length_app. lia. Qed.

Lemma count_in_cons f c s :
  count_in f (c :: s) = (Z_of_bool (f c) + count_in f s)%Z.
Proof.
  unfold count_in, Z_of_bool. cbn [filter]. destruct (f c); cbn [length]; lia.
Qed.

Lemma count_in_bounds f s : (0 <= count_in f s <= len s)%Z.
Proof.
  unfold count_in, len. pose proof (filter_length_le f s). lia.
Qed.

Lemma count_in_le (f g : codepoint -> bool) s :
  (forall c, f c = true -> g c = true) -> (count_in f s <= count_in g s)%Z.
Proof.
  intros I. induction s as [|c t IH]; [reflexivity|].
  rewrite !count_in_cons. unfold Z_of_bool.
  destruct (f c) eqn:F; [rewrite (I c F); lia | destruct (g c); lia].
Qed.

Lemma count_in_ext_in (f g : codepoint -> bool) s :
  (forall c, In c s -> f c = g c) -> count_in f s = count_in g s.
Proof. intros E. unfold count_in. now rewrite (filter_ext_in _ _ _ E). Qed.

Lemma count_in_separator s :
  count_in separator s
  = Z.of_nat (count_occ Z.eq_dec s 0x2028%Z + count_occ Z.eq_dec s 0x2029%Z).
Proof.
  induction s as [|c t IH]; [reflexivity|].
  rewrite count_in_cons, IH. cbn [count_occ]. unfold separator, Z_of_bool.
  destruct (Z.eq_dec c 0x2028) as [E1|N1], (Z.eq_dec c 0x2029) as [E2|N2];
    destruct (Z.eqb_spec c 0x2028), (Z.eqb_spec c 0x2029); cbn [orb]; lia.
Qed.

Lemma last_in_cons f prev c t : last_in f prev (c :: t) = last_in f (f c) t.
Proof.
  unfold last_in. simpl. destruct (rev t); reflexivity.
Qed.

Lemma run_starts_app f prev s1 s2 :
  run_starts f prev (s1 ++ s2)
  = (run_starts f prev s1 + run_starts f (last_in f prev s1) s2)%nat.
Proof.
  revert prev. induction s1 as [|c t IH]; intros prev; [reflexivity|].
  cbn [app run_starts]. rewrite IH, last_in_cons. lia.
Qed.

Lemma run_starts_prev f s :
  run_starts f false s
  = (run_starts f true s + (if head_in f s then 1 else 0))%nat.
Proof.
  destruct s as [|c t]; simpl; [reflexivity|]. destruct (f c); simpl; lia.
Qed.

Lemma run_starts_any_prev f prev s :
  run_starts f prev s
  = (run_starts f true s + (if negb prev && head_in f s then 1 else 0))%nat.
Proof.
  destruct prev; [simpl; lia | apply run_starts_prev].
Qed.

Lemma run_starts_le f prev s : (run_starts f prev s <= length (filter f s))%nat.
Proof.
  revert prev. induction s as [|c t IH]; intros prev; simpl; [lia|].
  specialize (IH (f c)). destruct (f c), prev; simpl; lia.
Qed.

Lemma count_runs_bounds f s : (0 <= count_runs f s <= count_in f s)%Z.
Proof.
  unfold count_runs, count_in. pose proof (run_starts_le f false s). lia.
Qed.

(** Putting a character outside [f] at the end starts no run. *)
Lemma count_runs_snoc_outside f s c :
  f c = false -> count_runs f (s ++ [c]) = count_runs f s.
Proof.
  intros E. unfold count_runs. rewrite run_starts_app. simpl. rewrite E.
  simpl. f_equal. lia.
Qed.

(** Putting a character of [f] at position [i] starts a run exactly when
    neither neighbour is in [f]. *)
Lemma count_runs_insert_inside f i c s :
  f c = true ->
  count_runs f (insert_at i c s)
  = (count_runs f s + Z_of_bool (negb (touches f i s)))%Z.
Proof.
  intros E. unfold count_runs, insert_at, touches.
  rewrite <- (firstn_skipn i s) at 3. rewrite !run_starts_app.
  set (q := last_in f false (firstn i s)). cbn [run_starts]. rewrite E.
  rewrite (run_starts_any_prev f q (skipn i s)).
  unfold Z_of_bool. destruct q, (head_in f (skipn i s)); simpl; lia.
Qed.

(** An inserted character is counted when it is in the set. *)
Lemma count_in_insert f i c s :
  count_in f (insert_at i c s) = (count_in f s + Z_of_bool (f c))%Z.
Proof.
  unfold insert_at. rewrite <- (firstn_skipn i s) at 3.
  rewrite !count_in_app, count_in_cons. lia.
Qed.

(** Three sets that exclude one another cover each character at most once. *)
Lemma count_in_disjoint3 (f g h : codepoint -> bool) s :
  (forall c, f c = true -> g c = false /\ h c = false) ->
  (forall c, g c = true -> h c = false) ->
  (count_in f s + count_in g s + count_in h s <= len s)%Z.
Proof.
  intros D1 D2. induction s as [|c t IH]; [reflexivity|].
  rewrite !count_in_cons. unfold len in *. cbn [length]. unfold Z_of_bool.
  destruct (f c) eqn:F.
  - destruct (D1 c F) as [-> ->]. lia.
  - destruct (g c) eqn:G; [rewrite (D2 c G); lia | destruct (h c); lia].
Qed.

(* ===================================================================== *)
(** * How the sets lie with respect to one another                        *)
(* ===================================================================== *)

Ltac unfold_ranges :=
  unfold kept in *; unfold_sets;
  unfold is_Zs, is_White_Space, in_ranges, in_block, in_range,
    Zs_ranges, White_Space_ranges in *;
  cbn [existsb fst snd block_range] in *.

Ltac bool_to_prop :=
  repeat (rewrite ?orb_true_iff, ?andb_true_iff, ?orb_false_iff,
            ?andb_false_iff, ?negb_true_iff, ?negb_false_iff,
            ?Z.leb_le, ?Z.leb_gt, ?Z.eqb_eq, ?Z.eqb_neq in * ).

Ltac ranges := unfold_ranges; bool_to_prop; lia.

Lemma line_break_is_whitespace c :
  line_break_set c = true -> whitespace_set c = true.
Proof. ranges. Qed.

Lemma whitespace_is_White_Space c :
  whitespace_set c = true -> is_White_Space c = true.
Proof. ranges. Qed.

Lemma excluded_not_whitespace c :
  excluded_mark c = true -> whitespace_set c = false.
Proof. ranges. Qed.

Lemma excluded_not_White_Space c :
  excluded_mark c = true -> is_White_Space c = false.
Proof. ranges. Qed.

Lemma excluded_not_line_break c :
  excluded_mark c = true -> line_break_set c = false.
Proof. ranges. Qed.

Lemma excluded_not_separator c :
  excluded_mark c = true -> separator c = false.
Proof. ranges. Qed.

Lemma separator_is_White_Space c :
  separator c = true -> is_White_Space c = true.
Proof. ranges. Qed.

Lemma separator_not_whitespace c :
  separator c = true -> whitespace_set c = false.
Proof. ranges. Qed.

Lemma separator_not_excluded c :
  separator c = true -> excluded_mark c = false.
Proof. ranges. Qed.

Lemma separator_kept c :
  separator c = true ->
  kept whitespace_set c = true /\ kept line_break_set c = true.
Proof. ranges. Qed.

Lemma excluded_not_kept drop c : excluded_mark c = true -> kept drop c = false.
Proof. intros E. unfold kept. rewrite E. apply andb_false_r. Qed.

Lemma kept_whitespace_le c :
  kept whitespace_set c = true -> kept line_break_set c = true.
Proof.
  unfold kept. rewrite !andb_true_iff, !negb_true_iff. intros [W E].
  split; [|exact E]. destruct (line_break_set c) eqn:B; [|reflexivity].
  apply line_break_is_whitespace in B. congruence.
Qed.

Section AsianFacts.
Context `{ScriptTable}.

(** Membership in the Asian set, spelled out. *)
Lemma asian_set_spec c :
  asian_set c = true
  <-> (exists sc, in_script sc c = true)
      \/ (exists b, In b asian_blocks /\ in_block b c = true)
      \/ c = 0x30FB%Z \/ c = 0x30FC%Z.
Proof.
  unfold asian_set. rewrite !orb_true_iff, !existsb_exists, !Z.eqb_eq.
  split.
  - intros [[[(sc & _ & S)|B]|E]|E]; eauto.
  - intros [(sc & S)|[B|[E|E]]]; auto.
    left; left; left. exists sc. split; [|exact S].
    destruct sc; simpl; auto 6.
Qed.

(** Outside the five scripts, only the blocks and the two extra
    characters decide. *)
Lemma asian_set_no_script c :
  no_script c ->
  asian_set c
  = existsb (fun b => in_block b c) asian_blocks
    || (c =? 0x30FB)%Z || (c =? 0x30FC)%Z.
Proof.
  intros N. unfold asian_set, asian_scripts. cbn [existsb].
  now rewrite !N.
Qed.

Lemma excluded_not_asian c :
  excluded_mark c = true -> no_script c -> asian_set c = false.
Proof.
  intros E N. rewrite (asian_set_no_script N). revert E. clear. ranges.
Qed.

Lemma separator_not_asian c :
  separator c = true -> no_script c -> asian_set c = false.
Proof.
  intros E N. rewrite (asian_set_no_script N). revert E. clear. ranges.
Qed.

Lemma enclosed_alphanumerics_not_asian c :
  in_block Enclosed_Alphanumerics c = true -> no_script c ->
  asian_set c = false /\ word_char c = true.
Proof.
  intros E N. unfold word_char. rewrite (asian_set_no_script N).
  revert E. clear. ranges.
Qed.

Lemma excluded_is_word_char c :
  excluded_mark c = true -> no_script c -> word_char c = true.
Proof.
  intros E N. unfold word_char.
  rewrite excluded_not_asian, excluded_not_White_Space by assumption.
  reflexivity.
Qed.

Lemma separator_not_word_char c : separator c = true -> word_char c = false.
Proof.
  intros E. unfold word_char. rewrite separator_is_White_Space by assumption.
  apply andb_false_r.
Qed.

Lemma asian_not_word_char c : asian_set c = true -> word_char c = false.
Proof. intros E. unfold word_char. now rewrite E. Qed.

End AsianFacts.

(* ===================================================================== *)
(** * The record as a whole                                               *)
(* ===================================================================== *)

Section RecordFacts.
Context `{ScriptTable}.

Lemma calculate_word_statistics_eq s :
  calculate_word_statistics s
  = {| Statistics.words :=
         count_runs word_char s + count_in asian_set s + count_in separator s;
       Statistics.characters_no_space := count_in (kept whitespace_set) s;
       Statistics.characters_with_space := count_in (kept line_break_set) s;
       Statistics.non_asian_words := count_runs word_char s;
       Statistics.asian_characters := count_in asian_set s |}%Z.
Proof.
  pose proof (words_eq s) as W. pose proof (non_asian_words_eq s) as N.
  pose proof (asian_characters_eq s) as A.
  unfold calculate_word_statistics in *. cbn [Statistics.words
    Statistics.non_asian_words Statistics.asian_characters] in *.
  rewrite W, N, A, count_characters_eq, count_characters_with_space_eq.
  reflexivity.
Qed.

Lemma words_disjoint s :
  no_script 0x2028%Z -> no_script 0x2029%Z ->
  (count_in word_char s + count_in asian_set s + count_in separator s <= len s)%Z.
Proof.
  intros N1 N2.
  assert (SA : forall c, separator c = true -> asian_set c = false).
  { intros c S. apply separator_not_asian; [exact S|].
    unfold separator in S. apply orb_true_iff in S as [E|E];
      apply Z.eqb_eq in E; now subst c. }
  apply count_in_disjoint3.
  - intros c W. split.
    + unfold word_char in W. apply andb_true_iff in W as [W _].
      now apply negb_true_iff in W.
    + destruct (separator c) eqn:S; [|reflexivity].
      apply separator_not_word_char in S. congruence.
  - intros c A. destruct (separator c) eqn:S; [|reflexivity].
    apply SA in S. congruence.
Qed.

End RecordFacts.

(** The record depends on the script table only through the Asian set,
    and only at the characters of the text. *)
Lemma calculate_word_statistics_ext (T1 T2 : ScriptTable) (s : text) :
  (forall c, In c s -> @asian_set T1 c = @asian_set T2 c) ->
  @calculate_word_statistics T1 s = @calculate_word_statistics T2 s.
Proof.
  intros E. rewrite !calculate_word_statistics_eq.
  assert (A : @count_in (@asian_set T1) s = count_in (@asian_set T2) s)
    by now apply count_in_ext_in.
  assert (W : count_runs (@word_char T1) s = count_runs (@word_char T2) s).
  { unfold count_runs. f_equal. apply run_starts_ext. intros c I.
    unfold word_char. now rewrite (E c I). }
  now rewrite A, W.
Qed.

(* ===================================================================== *)
(** * The claims                                                          *)
(* ===================================================================== *)

(** C1.  For every text, the record returned by [calculate_word_statistics]
    satisfies words = non_asian_words + asian_characters + the number of
    occurrences of U+2028 and U+2029 in the text, and [count_words]
    returns that same sum. *)
Theorem C1_words_decomposition `{ScriptTable} (s : text) :
  let r := calculate_word_statistics s in
  let separators :=
    Z.of_nat (count_occ Z.eq_dec s 0x2028%Z + count_occ Z.eq_dec s 0x2029%Z) in
  Statistics.words r
  = (Statistics.non_asian_words r + Statistics.asian_characters r + separators)%Z
  /\ count_words s
     = (Statistics.non_asian_words r + Statistics.asian_characters r
        + separators)%Z.
Proof.
  cbv zeta. rewrite count_words_eq, calculate_word_statistics_eq.
  cbn [Statistics.words Statistics.non_asian_words Statistics.asian_characters].
  rewrite count_in_separator. split; reflexivity.
Qed.

(** C3.  For every text, [count_characters] is the number of code points
    left after removing every whitespace-set character and then every
    excluded mark, and [count_characters_with_space] is the number left
    after removing only carriage returns and line feeds and then the
    excluded marks.  What is counted is code points: a character outside
    the basic plane counts once, a letter followed by a combining accent
    counts twice.  U+200C and U+200D are counted as ordinary characters,
    wherever they stand. *)
Theorem C3_character_counts `{ScriptTable} (s : text) :
  count_characters s
  = len (filter (fun c => negb (excluded_mark c))
                (filter (fun c => negb (whitespace_set c)) s))
  /\ count_characters_with_space s
     = len (filter (fun c => negb (excluded_mark c))
                   (filter (fun c => negb (line_break_set c)) s))
  /\ count_characters [0x1F600%Z] = 1%Z
  /\ count_characters_with_space [0x1F600%Z] = 1%Z
  /\ count_characters [0x65; 0x301]%Z = 2%Z
  /\ count_characters_with_space [0x65; 0x301]%Z = 2%Z
  /\ (forall s1 s2,
        count_characters (s1 ++ 0x200C%Z :: s2) = (count_characters (s1 ++ s2) + 1)%Z
        /\ count_characters (s1 ++ 0x200D%Z :: s2) = (count_characters (s1 ++ s2) + 1)%Z
        /\ count_characters_with_space (s1 ++ 0x200C%Z :: s2)
           = (count_characters_with_space (s1 ++ s2) + 1)%Z
        /\ count_characters_with_space (s1 ++ 0x200D%Z :: s2)
           = (count_characters_with_space (s1 ++ s2) + 1)%Z).
Proof.
  split; [|split].
  - unfold count_characters, SPACES, CHAR_EXCLUDES.
    rewrite (plus_sub_empty (pattern_set SPACES) whitespace_set _ SPACES_set).
    now rewrite (plus_sub_empty (pattern_set CHAR_EXCLUDES) excluded_mark _
                   CHAR_EXCLUDES_set).
  - unfold count_characters_with_space, BREAKS, CHAR_EXCLUDES.
    rewrite (plus_sub_empty (pattern_set BREAKS) line_break_set _ BREAKS_set).
    now rewrite (plus_sub_empty (pattern_set CHAR_EXCLUDES) excluded_mark _
                   CHAR_EXCLUDES_set).
  - rewrite !count_characters_eq, !count_characters_with_space_eq.
    do 4 (split; [reflexivity|]). intros s1 s2.
    rewrite !count_characters_eq, !count_characters_with_space_eq.
    rewrite !count_in_app, !count_in_cons.
    change (kept whitespace_set 0x200C%Z) with true.
    change (kept whitespace_set 0x200D%Z) with true.
    change (kept line_break_set 0x200C%Z) with true.
    change (kept line_break_set 0x200D%Z) with true.
    unfold Z_of_bool. lia.
Qed.

(** C6.  For every text, [count_characters_with_space] is at least
    [count_characters] (and so for the two fields of the record); the two
    are equal when the text holds no whitespace-set character other than
    carriage return and line feed: no Zs character, no tab, no form feed,
    no vertical tab. *)
Theorem C6_with_space_at_least_no_space `{ScriptTable} (s : text) :
  (count_characters s <= count_characters_with_space s)%Z
  /\ (Statistics.characters_no_space (calculate_word_statistics s)
      <= Statistics.characters_with_space (calculate_word_statistics s))%Z
  /\ ((forall c, In c s ->
         is_Zs c = false /\ c <> 0x09%Z /\ c <> 0x0C%Z /\ c <> 0x0B%Z) ->
      count_characters s = count_characters_with_space s
      /\ Statistics.characters_no_space (calculate_word_statistics s)
         = Statistics.characters_with_space (calculate_word_statistics s)).
Proof.
  cbn [calculate_word_statistics Statistics.characters_no_space
       Statistics.characters_with_space].
  rewrite count_characters_eq, count_characters_with_space_eq.
  pose proof (count_in_le _ _ s kept_whitespace_le) as L.
  split; [exact L|]. split; [exact L|]. intros Clean.
  assert (E : count_in (kept whitespace_set) s = count_in (kept line_break_set) s).
  { apply count_in_ext_in. intros c I.
    destruct (Clean c I) as (Z & T & F & V). unfold kept. do 2 f_equal.
    unfold whitespace_set, line_break_set. rewrite Z.
    apply Z.eqb_neq in T, F, V. rewrite T, F, V.
    destruct (c =? 10)%Z, (c =? 13)%Z; reflexivity. }
  split; exact E.
Qed.

(** The text "Hello", line feed, "World" holds no whitespace other than the
    line feed, and both counts are 10. *)
Lemma C6_with_space_at_least_no_space_witness :
  @count_characters unicode14 [72; 101; 108; 108; 111; 10; 87; 111; 114; 108; 100]%Z
  = @count_characters_with_space unicode14
      [72; 101; 108; 108; 111; 10; 87; 111; 114; 108; 100]%Z.
Proof.
  apply (@C6_with_space_at_least_no_space unicode14
           [72; 101; 108; 108; 111; 10; 87; 111; 114; 108; 100]%Z).
  intros c I. simpl in I.
  repeat (destruct I as [<-|I]; [repeat split; (reflexivity || discriminate)|]).
  destruct I.
Defined.

(** C7.  For every text, the record agrees with the standalone functions:
    its words field is [count_words], its characters_no_space field is
    [count_characters], its characters_with_space field is
    [count_characters_with_space]. *)
Theorem C7_record_consistent `{ScriptTable} (s : text) :
  Statistics.words (calculate_word_statistics s) = count_words s
  /\ Statistics.characters_no_space (calculate_word_statistics s)
     = count_characters s
  /\ Statistics.characters_with_space (calculate_word_statistics s)
     = count_characters_with_space s.
Proof. repeat split. Qed.

(** C8.  Addition of records is field by field, commutative and
    associative, and the all-zero record is neutral on both sides.  On
    objects, [a + b] allocates a new instance and leaves every instance
    that existed before, the two operands among them, as it was; an
    assignment to a field is refused and changes nothing. *)
Theorem C8_statistics_addition :
  (forall a b,
     Statistics.words (Statistics.add a b)
     = (Statistics.words a + Statistics.words b)%Z
     /\ Statistics.characters_no_space (Statistics.add a b)
        = (Statistics.characters_no_space a + Statistics.characters_no_space b)%Z
     /\ Statistics.characters_with_space (Statistics.add a b)
        = (Statistics.characters_with_space a
           + Statistics.characters_with_space b)%Z
     /\ Statistics.non_asian_words (Statistics.add a b)
        = (Statistics.non_asian_words a + Statistics.non_asian_words b)%Z
     /\ Statistics.asian_characters (Statistics.add a b)
        = (Statistics.asian_characters a + Statistics.asian_characters b)%Z)
  /\ (forall a b, Statistics.add a b = Statistics.add b a)
  /\ (forall a b c,
        Statistics.add (Statistics.add a b) c
        = Statistics.add a (Statistics.add b c))
  /\ (forall a, Statistics.add a Statistics.zero = a
                /\ Statistics.add Statistics.zero a = a)
  /\ (forall h x y a b,
        Statistics.deref h x = Some a -> Statistics.deref h y = Some b ->
        exists h' r,
          Statistics.add_obj h x y = inr (h', r)
          /\ Statistics.deref h r = None
          /\ Statistics.deref h' r = Some (Statistics.add a b)
          /\ (forall p v, Statistics.deref h p = Some v ->
                          Statistics.deref h' p = Some v))
  /\ (forall h r f v, exists e, Statistics.setattr h r f v = inl e).
Proof.
  split; [|split; [|split; [|split; [|split]]]].
  - intros a b. repeat split.
  - intros [] []. unfold Statistics.add. cbn. f_equal; lia.
  - intros [] [] []. unfold Statistics.add. cbn. f_equal; lia.
  - intros []. unfold Statistics.add, Statistics.zero. cbn.
    split; f_equal; lia.
  - intros h x y a b Hx Hy. exists (h ++ [Statistics.add a b]), (length h).
    unfold Statistics.add_obj, Statistics.new, Statistics.deref in *.
    rewrite Hx, Hy. repeat split.
    + apply nth_error_None. lia.
    + rewrite nth_error_app2, Nat.sub_diag by lia. reflexivity.
    + intros p v Hp. rewrite nth_error_app1; [exact Hp|].
      apply nth_error_Some. congruence.
  - intros h r f v. unfold Statistics.setattr.
    destruct (Statistics.deref h r); eexists; reflexivity.
Qed.

(** Adding the two records of the test suite, held at references 0 and 1:
    the sum is a third object and the first two are still there. *)
Lemma C8_statistics_addition_witness :
  let a := Statistics.mk 10 50 55 5 5 in
  let b := Statistics.mk 20 100 110 10 10 in
  exists h' r,
    Statistics.add_obj [a; b] 0 1 = inr (h', r)
    /\ Statistics.deref [a; b] r = None
    /\ Statistics.deref h' r = Some (Statistics.add a b)
    /\ (forall p v, Statistics.deref [a; b] p = Some v ->
                    Statistics.deref h' p = Some v).
Proof.
  intros a b.
  exact (proj1 (proj2 (proj2 (proj2 (proj2 C8_statistics_addition))))
           [a; b] 0%nat 1%nat a b eq_refl eq_refl).
Defined.

(** C10.  For every text, each of the five fields of the record, and each
    of [count_words], [count_characters], [count_characters_with_space],
    lies between 0 and the number of code points of the text, for every
    script table that puts neither U+2028 nor U+2029 in one of the five
    scripts. *)
Theorem C10_metrics_bounded `{ScriptTable} (s : text) :
  no_script 0x2028%Z -> no_script 0x2029%Z ->
  let r := calculate_word_statistics s in
  Forall (fun n => (0 <= n <= len s)%Z)
    [ Statistics.words r; Statistics.characters_no_space r;
      Statistics.characters_with_space r; Statistics.non_asian_words r;
      Statistics.asian_characters r;
      count_words s; count_characters s; count_characters_with_space s ].
Proof.
  intros N1 N2 r. subst r.
  rewrite count_words_eq, count_characters_eq, count_characters_with_space_eq,
    calculate_word_statistics_eq.
  cbn [Statistics.words Statistics.characters_no_space
       Statistics.characters_with_space Statistics.non_asian_words
       Statistics.asian_characters].
  pose proof (words_disjoint s N1 N2) as D.
  pose proof (count_runs_bounds word_char s) as R.
  pose proof (count_in_bounds word_char s) as W.
  pose proof (count_in_bounds asian_set s) as A.
  pose proof (count_in_bounds separator s) as S.
  pose proof (count_in_bounds (kept whitespace_set) s) as K1.
  pose proof (count_in_bounds (kept line_break_set) s) as K2.
  repeat constructor; lia.
Qed.

(** On the text "a", U+2028, "b", U+4E16 every metric is at most 4. *)
Lemma C10_metrics_bounded_witness :
  let s := [0x61; 0x2028; 0x62; 0x4E16]%Z in
  let r := @calculate_word_statistics unicode14 s in
  Forall (fun n => (0 <= n <= len s)%Z)
    [ Statistics.words r; Statistics.characters_no_space r;
      Statistics.characters_with_space r; Statistics.non_asian_words r;
      Statistics.asian_characters r;
      @count_words unicode14 s; @count_characters unicode14 s;
      @count_characters_with_space unicode14 s ].
Proof.
  apply (@C10_metrics_bounded unicode14 [0x61; 0x2028; 0x62; 0x4E16]%Z);
    intros sc; destruct sc; reflexivity.
Defined.

(** C9.  The empty text yields the all-zero record; "Hello", space,
    U+4E16, U+754C yields words 3, non_asian_words 1, asian_characters 2;
    space, tab, line feed, carriage return, space yields words 0,
    characters_no_space 0, characters_with_space 3, non_asian_words 0,
    asian_characters 0.  This holds for every script table that has the
    two ideographs in Han and no ASCII character in any of the five
    scripts. *)
Theorem C9_literal_scenarios `{ScriptTable} :
  (forall sc c, (0 <= c < 128)%Z -> in_script sc c = false) ->
  in_script Han 0x4E16%Z = true ->
  in_script Han 0x754C%Z = true ->
  calculate_word_statistics [] = Statistics.mk 0 0 0 0 0
  /\ (let r := calculate_word_statistics
                 [0x48; 0x65; 0x6C; 0x6C; 0x6F; 0x20; 0x4E16; 0x754C]%Z in
      Statistics.words r = 3%Z
      /\ Statistics.non_asian_words r = 1%Z
      /\ Statistics.asian_characters r = 2%Z)
  /\ calculate_word_statistics [0x20; 0x09; 0x0A; 0x0D; 0x20]%Z
     = Statistics.mk 0 0 3 0 0.
Proof.
  intros Ascii Han1 Han2.
  assert (ascii_agree : forall c, (0 <= c < 128)%Z ->
            asian_set c = @asian_set unicode14 c).
  { intros c Hc. rewrite asian_set_no_script by (intros sc; now apply Ascii).
    rewrite (@asian_set_no_script unicode14 c); [reflexivity|].
    intros sc. clear - Hc. destruct sc; cbn; unfold in_range; bool_to_prop; lia. }
  assert (han_agree : forall c, in_script Han c = true ->
            @in_script unicode14 Han c = true ->
            asian_set c = @asian_set unicode14 c).
  { intros c A B. transitivity true; [|symmetry];
      apply asian_set_spec; left; exists Han; assumption. }
  split; [reflexivity|]. split.
  - rewrite (@calculate_word_statistics_ext H unicode14).
    + cbv zeta. repeat split.
    + intros c I. simpl in I.
      repeat (destruct I as [<-|I]; [first [apply ascii_agree; lia
                                          | apply han_agree; [assumption|reflexivity]]|]).
      destruct I.
  - rewrite (@calculate_word_statistics_ext H unicode14).
    + reflexivity.
    + intros c I. simpl in I.
      repeat (destruct I as [<-|I]; [apply ascii_agree; lia|]).
      destruct I.
Qed.

(** The table of Unicode 14.0 is such a table. *)
Lemma C9_literal_scenarios_witness :
  @calculate_word_statistics unicode14 [] = Statistics.mk 0 0 0 0 0
  /\ (let r := @calculate_word_statistics unicode14
                 [0x48; 0x65; 0x6C; 0x6C; 0x6F; 0x20; 0x4E16; 0x754C]%Z in
      Statistics.words r = 3%Z
      /\ Statistics.non_asian_words r = 1%Z
      /\ Statistics.asian_characters r = 2%Z)
  /\ @calculate_word_statistics unicode14 [0x20; 0x09; 0x0A; 0x0D; 0x20]%Z
     = Statistics.mk 0 0 3 0 0.
Proof.
  apply (@C9_literal_scenarios unicode14).
  - intros sc c Hc. destruct sc; cbn; unfold in_range; bool_to_prop; lia.
  - reflexivity.
  - reflexivity.
Defined.

(** The escape [\s] covers the whitespace set and three characters more:
    U+0085, U+2028 and U+2029. *)
Lemma White_Space_split c :
  is_White_Space c = whitespace_set c || (c =? 0x85)%Z || separator c.
Proof.
  apply eq_true_iff_eq. ranges.
Qed.

(** A character of [f] put right after another one joins its run. *)
Lemma count_runs_attach f s1 c d s2 :
  f c = true -> f d = true ->
  count_runs f (s1 ++ c :: d :: s2) = count_runs f (s1 ++ c :: s2).
Proof.
  intros C D. unfold count_runs. rewrite !run_starts_app. cbn [run_starts].
  rewrite C, D. reflexivity.
Qed.

(** C2, as the specification states it, fails: in "a", U+2028, "b" no
    character is Asian or in the whitespace set, so the whole text is one
    maximal run of such characters, but the pattern finds two words. *)
Lemma C2_counterexample :
  let s := [0x61; 0x2028; 0x62]%Z in
  maximal_run (@spec_word_char unicode14) s [] s []
  /\ count_runs (@spec_word_char unicode14) s = 1%Z
  /\ Statistics.non_asian_words (@calculate_word_statistics unicode14 s) = 2%Z
  /\ Statistics.non_asian_words (@calculate_word_statistics unicode14 s)
     <> count_runs (@spec_word_char unicode14) s.
Proof.
  cbv zeta. split; [|split; [|split]].
  - split; try reflexivity; try exact I. discriminate.
  - reflexivity.
  - reflexivity.
  - intros E. vm_compute in E. discriminate E.
Qed.

(** C2, amended.  For every text:
    - the matches of ASIANS are exactly the maximal runs of Asian-set
      characters, in order, and asian_characters is the sum of their
      lengths, which is the number of Asian-set characters of the text;
    - the matches of NON_ASIAN_WORDS are exactly the maximal runs of
      characters that are neither in the Asian set nor matched by [\s],
      in order, and non_asian_words is their number; [\s] matches the
      whitespace set (Zs, tab, newline, carriage return, form feed,
      vertical tab) and also U+0085, U+2028 and U+2029;
    - the Asian set is the union of the five scripts and the ten blocks,
      plus U+30FB and U+30FC;
    - a character of Enclosed Alphanumerics that is in none of the five
      scripts is outside the Asian set and is a member of non-Asian words;
    - a word character that follows a word character belongs to the same
      word. *)
Theorem C2_runs_amended `{ScriptTable} (s : text) :
  let r := calculate_word_statistics s in
  (forall m, In m (finditer ASIANS s)
             <-> exists pre post,
                   start m = length pre
                   /\ maximal_run asian_set s pre (group m) post)
  /\ StronglySorted (fun a b => (end_ a < start b)%nat) (finditer ASIANS s)
  /\ Statistics.asian_characters r
     = sum (map (fun m => len (group m)) (finditer ASIANS s))
  /\ Statistics.asian_characters r = count_in asian_set s
  /\ (forall m, In m (finditer NON_ASIAN_WORDS s)
                <-> exists pre post,
                      start m = length pre
                      /\ maximal_run word_char s pre (group m) post)
  /\ StronglySorted (fun a b => (end_ a < start b)%nat)
                    (finditer NON_ASIAN_WORDS s)
  /\ Statistics.non_asian_words r = Z.of_nat (length (finditer NON_ASIAN_WORDS s))
  /\ Statistics.non_asian_words r = count_runs word_char s
  /\ (forall c, word_char c
                = negb (asian_set c)
                  && negb (whitespace_set c || (c =? 0x85)%Z || separator c))
  /\ (forall c, asian_set c = true
                <-> (exists sc, in_script sc c = true)
                    \/ (exists b, In b asian_blocks /\ in_block b c = true)
                    \/ c = 0x30FB%Z \/ c = 0x30FC%Z)
  /\ (forall c, in_block Enclosed_Alphanumerics c = true -> no_script c ->
                asian_set c = false /\ word_char c = true)
  /\ (forall s1 c d s2, word_char c = true -> word_char d = true ->
        Statistics.non_asian_words (calculate_word_statistics (s1 ++ c :: d :: s2))
        = Statistics.non_asian_words (calculate_word_statistics (s1 ++ c :: s2))).
Proof.
  cbv zeta. repeat apply conj.
  - intros m. apply plus_runs. exact ASIANS_set.
  - apply finditer_plus_sorted.
  - reflexivity.
  - apply asian_characters_eq.
  - intros m. apply plus_runs. exact NON_ASIAN_WORDS_set.
  - apply finditer_plus_sorted.
  - cbn [calculate_word_statistics Statistics.non_asian_words].
    apply sum_ones.
  - apply non_asian_words_eq.
  - intros c. unfold word_char. now rewrite White_Space_split.
  - apply asian_set_spec.
  - intros c. apply enclosed_alphanumerics_not_asian.
  - intros s1 c d s2 C D. rewrite !non_asian_words_eq.
    now apply count_runs_attach.
Qed.

(** The circled digit one is a word character under Unicode 14.0, and in
    "example." the full stop belongs to the word. *)
Lemma C2_runs_amended_witness :
  (@asian_set unicode14 0x2460%Z = false /\ @word_char unicode14 0x2460%Z = true)
  /\ Statistics.non_asian_words
       (@calculate_word_statistics unicode14
          ([0x65; 0x78; 0x61; 0x6D; 0x70; 0x6C] ++ 0x65 :: 0x2E :: [])%Z)
     = Statistics.non_asian_words
         (@calculate_word_statistics unicode14
            ([0x65; 0x78; 0x61; 0x6D; 0x70; 0x6C] ++ 0x65 :: [])%Z).
Proof.
  pose proof (@C2_runs_amended unicode14 []) as C. cbv zeta in C.
  destruct C as (_ & _ & _ & _ & _ & _ & _ & _ & _ & _ & Enc & Att). split.
  - apply Enc; [reflexivity|]. intros sc. destruct sc; reflexivity.
  - apply Att; reflexivity.
Defined.

(** C4, as the specification states it, fails: BREAKS removes carriage
    returns and line feeds only, so appending U+2028 to "a" raises
    characters_with_space from 1 to 2. *)
Lemma C4_counterexample :
  let r := @calculate_word_statistics unicode14 [0x61]%Z in
  let r' := @calculate_word_statistics unicode14 ([0x61] ++ [0x2028])%Z in
  Statistics.characters_with_space r = 1%Z
  /\ Statistics.characters_with_space r' = 2%Z
  /\ Statistics.characters_with_space r' <> Statistics.characters_with_space r.
Proof.
  cbv zeta. repeat split; intros E; vm_compute in E; discriminate E.
Qed.

(** C4, amended.  Appending one U+2028 or U+2029 to any text raises words
    by exactly 1, leaves non_asian_words and asian_characters unchanged,
    and raises characters_with_space by exactly 1: for that count only
    carriage returns and line feeds are removed, so the separator is kept.
    Nothing is said about characters_no_space.  This holds for every
    script table that puts the separator in none of the five scripts. *)
Theorem C4_separator_amended `{ScriptTable} (s : text) (c : codepoint) :
  c = 0x2028%Z \/ c = 0x2029%Z -> no_script c ->
  let r := calculate_word_statistics s in
  let r' := calculate_word_statistics (s ++ [c]) in
  Statistics.words r' = (Statistics.words r + 1)%Z
  /\ Statistics.non_asian_words r' = Statistics.non_asian_words r
  /\ Statistics.asian_characters r' = Statistics.asian_characters r
  /\ Statistics.characters_with_space r'
     = (Statistics.characters_with_space r + 1)%Z.
Proof.
  intros C N r r'. subst r r'.
  assert (S : separator c = true) by (destruct C; subst c; reflexivity).
  rewrite !calculate_word_statistics_eq.
  cbn [Statistics.words Statistics.characters_with_space
       Statistics.non_asian_words Statistics.asian_characters].
  rewrite count_runs_snoc_outside by now apply separator_not_word_char.
  rewrite !count_in_app, !count_in_cons.
  rewrite separator_not_asian, S by assumption.
  destruct (separator_kept c S) as [_ ->].
  unfold count_in, Z_of_bool. simpl. lia.
Qed.

Lemma C4_separator_amended_witness :
  let r := @calculate_word_statistics unicode14 [0x61; 0x20; 0x4E16]%Z in
  let r' := @calculate_word_statistics unicode14 ([0x61; 0x20; 0x4E16] ++ [0x2029])%Z in
  Statistics.words r' = (Statistics.words r + 1)%Z
  /\ Statistics.non_asian_words r' = Statistics.non_asian_words r
  /\ Statistics.asian_characters r' = Statistics.asian_characters r
  /\ Statistics.characters_with_space r'
     = (Statistics.characters_with_space r + 1)%Z.
Proof.
  apply (@C4_separator_amended unicode14 [0x61; 0x20; 0x4E16]%Z 0x2029%Z).
  - right. reflexivity.
  - intros sc. destruct sc; reflexivity.
Defined.

(** C5, as the specification states it, fails: inserting U+FEFF into the
    empty text raises words and non_asian_words from 0 to 1. *)
Lemma C5_counterexample :
  let r := @calculate_word_statistics unicode14 [] in
  let r' := @calculate_word_statistics unicode14 (insert_at 0 0xFEFF%Z []) in
  excluded_mark 0xFEFF%Z = true
  /\ Statistics.words r = 0%Z /\ Statistics.words r' = 1%Z
  /\ Statistics.non_asian_words r = 0%Z /\ Statistics.non_asian_words r' = 1%Z
  /\ Statistics.words r' <> Statistics.words r
  /\ Statistics.non_asian_words r' <> Statistics.non_asian_words r.
Proof.
  cbv zeta. repeat split; intros E; vm_compute in E; discriminate E.
Qed.

(** C5, amended.  For every text, position and excluded mark that is in
    none of the five scripts, inserting the mark changes neither
    characters_no_space nor characters_with_space nor asian_characters;
    non_asian_words and words stay as they were when the character before
    or the character after the position is a member of a non-Asian word,
    and both grow by exactly 1 otherwise. *)
Theorem C5_excluded_mark_amended `{ScriptTable}
    (s : text) (i : nat) (c : codepoint) :
  excluded_mark c = true -> no_script c ->
  let r := calculate_word_statistics s in
  let r' := calculate_word_statistics (insert_at i c s) in
  let grows := Z_of_bool (negb (touches word_char i s)) in
  Statistics.characters_no_space r' = Statistics.characters_no_space r
  /\ Statistics.characters_with_space r' = Statistics.characters_with_space r
  /\ Statistics.asian_characters r' = Statistics.asian_characters r
  /\ Statistics.non_asian_words r' = (Statistics.non_asian_words r + grows)%Z
  /\ Statistics.words r' = (Statistics.words r + grows)%Z.
Proof.
  intros E N r r' grows. subst r r' grows.
  rewrite !calculate_word_statistics_eq.
  cbn [Statistics.words Statistics.characters_no_space
       Statistics.characters_with_space Statistics.non_asian_words
       Statistics.asian_characters].
  rewrite count_runs_insert_inside by now apply excluded_is_word_char.
  rewrite !count_in_insert.
  rewrite !excluded_not_kept, excluded_not_asian, excluded_not_separator
    by assumption.
  change (Z_of_bool false) with 0%Z. lia.
Qed.

(** A zero-width space between "a" and "b" changes nothing; at the end of
    "a", space, it starts a word. *)
Lemma C5_excluded_mark_amended_witness :
  (let r := @calculate_word_statistics unicode14 [0x61; 0x62]%Z in
   let r' := @calculate_word_statistics unicode14
               (insert_at 1 0x200B%Z [0x61; 0x62]%Z) in
   let grows := Z_of_bool (negb (touches (@word_char unicode14) 1 [0x61; 0x62]%Z)) in
   Statistics.characters_no_space r' = Statistics.characters_no_space r
   /\ Statistics.characters_with_space r' = Statistics.characters_with_space r
   /\ Statistics.asian_characters r' = Statistics.asian_characters r
   /\ Statistics.non_asian_words r' = (Statistics.non_asian_words r + grows)%Z
   /\ Statistics.words r' = (Statistics.words r + grows)%Z)
  /\ Z_of_bool (negb (touches (@word_char unicode14) 1 [0x61; 0x62]%Z)) = 0%Z
  /\ Z_of_bool (negb (touches (@word_char unicode14) 2 [0x61; 0x20]%Z)) = 1%Z.
Proof.
  split; [|split; reflexivity].
  apply (@C5_excluded_mark_amended unicode14 [0x61; 0x62]%Z 1%nat 0x200B%Z).
  - reflexivity.
  - intros sc. destruct sc; reflexivity.
Defined.

(* ===================================================================== *)
(** * Further properties of the counting engine                           *)
(* ===================================================================== *)

Lemma count_runs_app f s1 s2 :
  count_runs f (s1 ++ s2)
  = (count_runs f s1 + count_runs f s2
     - Z_of_bool (last_in f false s1 && head_in f s2))%Z.
Proof.
  unfold count_runs. rewrite run_starts_app.
  rewrite (run_starts_any_prev f (last_in f false s1) s2).
  rewrite (run_starts_prev f s2). unfold Z_of_bool.
  destruct (last_in f false s1), (head_in f s2); simpl; lia.
Qed.

Lemma count_runs_zero_iff f s :
  count_runs f s = 0%Z <-> forall c, In c s -> f c = false.
Proof.
  unfold count_runs. split.
  - intros Z. assert (Z' : run_starts f false s = 0%nat) by lia. clear Z.
    induction s as [|c t IH]; intros d I; [destruct I|].
    simpl in Z'. destruct (f c) eqn:F; simpl in Z'; [lia|].
    destruct I as [<-|I]; [exact F | now apply IH].
  - intros A. f_equal. induction s as [|c t IH]; [reflexivity|].
    simpl. rewrite (A c) by now left. simpl.
    apply IH. intros d I. apply A. now right.
Qed.

Lemma count_in_zero_iff f s :
  count_in f s = 0%Z <-> forall c, In c s -> f c = false.
Proof.
  induction s as [|c t IH].
  - split; [intros _ d []|reflexivity].
  - rewrite count_in_cons. pose proof (count_in_bounds f t) as B.
    unfold Z_of_bool. split.
    + intros Z d I. destruct (f c) eqn:F; [lia|].
      destruct I as [<-|I]; [exact F|]. apply IH; [lia | exact I].
    + intros A. rewrite (A c) by now left. apply IH. intros d I. apply A. now right.
Qed.

Lemma count_in_le2 (f g h : codepoint -> bool) s :
  (forall c, In c s -> f c = true -> g c = true \/ h c = true) ->
  (count_in f s <= count_in g s + count_in h s)%Z.
Proof.
  induction s as [|c t IH]; intros A; [reflexivity|].
  rewrite !count_in_cons. specialize (IH (fun d I => A d (or_intror I))).
  specialize (A c (or_introl eq_refl)). unfold Z_of_bool.
  destruct (f c); [destruct (A eq_refl) as [-> | ->]|];
    destruct (g c), (h c); lia.
Qed.

(** X1.  Concatenation.  Both character counts and asian_characters of
    [s1 ++ s2] are the sums of those of [s1] and [s2]; non_asian_words and
    words are the sums less 1 when [s1] ends and [s2] begins with a member
    of a non-Asian word (the two words merge), and the sums otherwise. *)
Theorem X1_concatenation `{ScriptTable} (s1 s2 : text) :
  let r1 := calculate_word_statistics s1 in
  let r2 := calculate_word_statistics s2 in
  let r := calculate_word_statistics (s1 ++ s2) in
  let merged := Z_of_bool (last_in word_char false s1 && head_in word_char s2) in
  Statistics.characters_no_space r
  = (Statistics.characters_no_space r1 + Statistics.characters_no_space r2)%Z
  /\ Statistics.characters_with_space r
     = (Statistics.characters_with_space r1
        + Statistics.characters_with_space r2)%Z
  /\ Statistics.asian_characters r
     = (Statistics.asian_characters r1 + Statistics.asian_characters r2)%Z
  /\ Statistics.non_asian_words r
     = (Statistics.non_asian_words r1 + Statistics.non_asian_words r2 - merged)%Z
  /\ Statistics.words r
     = (Statistics.words r1 + Statistics.words r2 - merged)%Z.
Proof.
  cbv zeta. rewrite !calculate_word_statistics_eq.
  cbn [Statistics.words Statistics.characters_no_space
       Statistics.characters_with_space Statistics.non_asian_words
       Statistics.asian_characters].
  rewrite !count_in_app, count_runs_app. repeat split; lia.
Qed.

(** X2.  The record of [s1 ++ s2] is the sum of the records of [s1] and
    [s2] exactly when no word runs across the junction: [s1] does not end,
    or [s2] does not begin, with a member of a non-Asian word. *)
Theorem X2_concatenation_additive `{ScriptTable} (s1 s2 : text) :
  calculate_word_statistics (s1 ++ s2)
  = Statistics.add (calculate_word_statistics s1) (calculate_word_statistics s2)
  <-> last_in word_char false s1 && head_in word_char s2 = false.
Proof.
  rewrite !calculate_word_statistics_eq. unfold Statistics.add.
  cbn [Statistics.words Statistics.characters_no_space
       Statistics.characters_with_space Statistics.non_asian_words
       Statistics.asian_characters].
  rewrite !count_in_app, count_runs_app.
  destruct (last_in word_char false s1 && head_in word_char s2);
    unfold Z_of_bool; split; intros E.
  - exfalso. injection E. lia.
  - discriminate E.
  - reflexivity.
  - f_equal; lia.
Qed.

(** X3.  The word count of a text is 0 exactly when every character of
    the text is matched by [\s] and is neither in the Asian set nor a
    line or paragraph separator. *)
Theorem X3_words_zero_iff `{ScriptTable} (s : text) :
  count_words s = 0%Z
  <-> forall c, In c s ->
        is_White_Space c = true /\ asian_set c = false /\ separator c = false.
Proof.
  rewrite count_words_eq.
  pose proof (count_runs_bounds word_char s) as R.
  pose proof (count_in_bounds asian_set s) as A.
  pose proof (count_in_bounds separator s) as S.
  split.
  - intros Z c I.
    assert (W : count_runs word_char s = 0%Z) by lia.
    assert (A0 : count_in asian_set s = 0%Z) by lia.
    assert (S0 : count_in separator s = 0%Z) by lia.
    rewrite count_runs_zero_iff in W. rewrite count_in_zero_iff in A0, S0.
    specialize (W c I). specialize (A0 c I). specialize (S0 c I).
    unfold word_char in W. rewrite A0 in W. simpl in W.
    apply negb_false_iff in W. auto.
  - intros All.
    assert (W : count_runs word_char s = 0%Z).
    { apply count_runs_zero_iff. intros c I. destruct (All c I) as (W & _ & _).
      unfold word_char. rewrite W. apply andb_false_r. }
    assert (A0 : count_in asian_set s = 0%Z)
      by (apply count_in_zero_iff; intros c I; apply (All c I)).
    assert (S0 : count_in separator s = 0%Z)
      by (apply count_in_zero_iff; intros c I; apply (All c I)).
    lia.
Qed.

(** X4.  Inserting a whitespace-set character anywhere leaves
    [count_characters] unchanged; it leaves [count_characters_with_space]
    unchanged when it is a carriage return or a line feed and raises it by
    1 otherwise. *)
Theorem X4_whitespace_insertion `{ScriptTable}
    (s : text) (i : nat) (c : codepoint) :
  whitespace_set c = true ->
  count_characters (insert_at i c s) = count_characters s
  /\ count_characters_with_space (insert_at i c s)
     = (count_characters_with_space s + Z_of_bool (negb (line_break_set c)))%Z.
Proof.
  intros W. rewrite !count_characters_eq, !count_characters_with_space_eq.
  rewrite !count_in_insert.
  assert (E : excluded_mark c = false).
  { destruct (excluded_mark c) eqn:E; [|reflexivity].
    apply excluded_not_whitespace in E. congruence. }
  assert (K1 : kept whitespace_set c = false) by (unfold kept; now rewrite W).
  assert (K2 : kept line_break_set c = negb (line_break_set c))
    by (unfold kept; rewrite E; apply andb_true_r).
  rewrite K1, K2. unfold Z_of_bool at 1. split; [lia | reflexivity].
Qed.

Lemma X4_whitespace_insertion_witness :
  @count_characters unicode14 (insert_at 1 0x09%Z [0x61; 0x62]%Z)
  = @count_characters unicode14 [0x61; 0x62]%Z
  /\ @count_characters_with_space unicode14 (insert_at 1 0x09%Z [0x61; 0x62]%Z)
     = (@count_characters_with_space unicode14 [0x61; 0x62]%Z
        + Z_of_bool (negb (line_break_set 0x09%Z)))%Z.
Proof.
  apply (@X4_whitespace_insertion unicode14 [0x61; 0x62]%Z 1%nat 0x09%Z).
  reflexivity.
Defined.

(** X5.  Every Asian-set character except the ideographic space U+3000
    is also counted by [count_characters]: asian_characters is at most
    characters_no_space plus the number of U+3000 in the text.  This holds
    when no whitespace-set character and no excluded mark of the text is
    in one of the five scripts. *)
Theorem X5_asian_counted_as_characters `{ScriptTable} (s : text) :
  (forall c, In c s -> whitespace_set c = true \/ excluded_mark c = true ->
             no_script c) ->
  let r := calculate_word_statistics s in
  (Statistics.asian_characters r
   <= Statistics.characters_no_space r
      + Z.of_nat (count_occ Z.eq_dec s 0x3000%Z))%Z.
Proof.
  intros N r. subst r. rewrite calculate_word_statistics_eq.
  cbn [Statistics.characters_no_space Statistics.asian_characters].
  assert (C : Z.of_nat (count_occ Z.eq_dec s 0x3000%Z)
              = count_in (fun c => (c =? 0x3000)%Z) s).
  { clear. unfold count_in. f_equal. induction s as [|c t IH]; [reflexivity|].
    simpl. destruct (Z.eq_dec c 12288), (Z.eqb_spec c 12288);
      simpl; congruence. }
  rewrite C. apply count_in_le2. intros c I A.
  destruct (kept whitespace_set c) eqn:K; [now left|right].
  assert (B : whitespace_set c = true \/ excluded_mark c = true).
  { unfold kept in K. apply andb_false_iff in K as [K|K];
      apply negb_false_iff in K; auto. }
  specialize (N c I B). rewrite (asian_set_no_script N) in A.
  clear - A B. revert A B. ranges.
Qed.

Lemma X5_asian_counted_as_characters_witness :
  let s := [0x4E16; 0x3000; 0x754C; 0x20; 0xFE0F]%Z in
  let r := @calculate_word_statistics unicode14 s in
  (Statistics.asian_characters r
   <= Statistics.characters_no_space r
      + Z.of_nat (count_occ Z.eq_dec s 0x3000%Z))%Z.
Proof.
  apply (@X5_asian_counted_as_characters unicode14
           [0x4E16; 0x3000; 0x754C; 0x20; 0xFE0F]%Z).
  intros c I B. simpl in I.
  repeat (destruct I as [<-|I];
          [first [ intros sc; destruct sc; reflexivity
                 | exfalso; destruct B as [B|B]; discriminate B ]|]).
  destruct I.
Defined.

(* ===================================================================== *)
(** * Properties of the built-ins                                         *)
(* ===================================================================== *)

Lemma lit_cons a s :
  lit (String.String a s) = Z.of_nat (Ascii.nat_of_ascii a) :: lit s.
Proof. reflexivity. Qed.

Lemma lit_inj s1 s2 : lit s1 = lit s2 -> s1 = s2.
Proof.
  revert s2. induction s1 as [|a s1 IH]; intros [|b s2] E;
    try reflexivity; try discriminate E.
  rewrite !lit_cons in E. injection E as E1 E2.
  apply Nat2Z.inj in E1.
  assert (a = b).
  { rewrite <- (Ascii.ascii_nat_embedding a), <- (Ascii.ascii_nat_embedding b).
    now rewrite E1. }
  subst b. f_equal. now apply IH.
Qed.

Lemma to_int_not_nil n :
  Z.to_int n <> Decimal.Pos Decimal.Nil /\ Z.to_int n <> Decimal.Neg Decimal.Nil.
Proof.
  destruct n as [|p|p]; simpl; split; try discriminate;
    intros [= E]; now apply (DecimalPos.Unsigned.to_uint_nonnil p).
Qed.

(** [str] of an integer can be read back. *)
Lemma str_int_inj a b : str_int a = str_int b -> a = b.
Proof.
  unfold str_int. intros E. apply lit_inj in E.
  apply (f_equal DecimalString.NilZero.int_of_string) in E.
  destruct (to_int_not_nil a) as [A1 A2], (to_int_not_nil b) as [B1 B2].
  rewrite !DecimalString.NilZero.isi in E by assumption.
  injection E as E. rewrite <- (DecimalZ.of_to a), <- (DecimalZ.of_to b).
  now rewrite E.
Qed.

Lemma string_of_uint_chars d :
  forallb int_char (lit (DecimalString.NilEmpty.string_of_uint d)) = true.
Proof.
  induction d; [reflexivity | ..]; simpl DecimalString.NilEmpty.string_of_uint;
    rewrite lit_cons; cbn [forallb]; rewrite IHd; reflexivity.
Qed.

(** [str] of an integer holds digits and possibly a minus sign. *)
Lemma str_int_chars n : forallb int_char (str_int n) = true.
Proof.
  unfold str_int.
  assert (U : forall d,
    forallb int_char (lit (DecimalString.NilZero.string_of_uint d)) = true).
  { intros d. destruct d; try apply string_of_uint_chars. reflexivity. }
  destruct (Z.to_int n) as [d|d]; simpl DecimalString.NilZero.string_of_int.
  - apply U.
  - rewrite lit_cons. cbn [forallb]. now rewrite U.
Qed.

Lemma str_int_no_newline n : ~ In 10%Z (str_int n).
Proof.
  intros I. pose proof (str_int_chars n) as C.
  rewrite forallb_forall in C. specialize (C _ I). discriminate C.
Qed.

Lemma ljust_length s w : length (ljust s w) = Nat.max (length s) w.
Proof. unfold ljust. rewrite length_app, repeat_length. lia. Qed.

Lemma ljust_fits s w : (length s <= w)%nat -> length (ljust s w) = w.
Proof. intros L. rewrite ljust_length. lia. Qed.

Lemma join_cons2 sep p q rest :
  join sep (p :: q :: rest) = p ++ sep ++ join sep (q :: rest).
Proof. reflexivity. Qed.

(** The length of a joined text: the parts, and a separator between any
    two. *)
Lemma join_length sep parts :
  length (join sep parts)
  = (list_sum (map (@length _) parts) + length sep * (length parts - 1))%nat.
Proof.
  induction parts as [|p [|q rest] IH]; [simpl; lia | simpl; lia |].
  rewrite join_cons2, !length_app, IH. cbn [map length].
  unfold list_sum. cbn [fold_right]. rewrite !Nat.sub_succ, !Nat.sub_0_r.
  rewrite (Nat.mul_succ_r (length sep)). lia.
Qed.

Lemma zip_strict_combine (A B : Type) (a : list A) (b : list B) :
  length a = length b -> zip_strict a b = inr (combine a b).
Proof.
  revert b. induction a as [|x a IH]; intros [|y b] L; try discriminate L;
    [reflexivity|].
  simpl. rewrite IH by (simpl in L; lia). reflexivity.
Qed.

Lemma mapM_ok (A B : Type) (f : A -> result B) (g : A -> B) (l : list A) :
  (forall x, In x l -> f x = inr (g x)) -> mapM f l = inr (map g l).
Proof.
  induction l as [|x t IH]; intros E; [reflexivity|].
  simpl. rewrite (E x) by now left. simpl.
  rewrite IH by (intros y I; apply E; now right). reflexivity.
Qed.

Lemma fold_max_ge (l : list nat) (x : nat) :
  (x <= fold_left Nat.max l x)%nat
  /\ Forall (fun y => (y <= fold_left Nat.max l x)%nat) l.
Proof.
  revert x. induction l as [|y t IH]; intros x; simpl; [split; [lia|constructor]|].
  destruct (IH (Nat.max x y)) as [L F]. split; [lia|].
  constructor; [lia | exact F].
Qed.

(** [max] returns a value that bounds every element; it raises only on
    the empty sequence. *)
Lemma max_of_spec (l : list nat) :
  match max_of l with
  | inr m => l <> [] /\ Forall (fun y => (y <= m)%nat) l
  | inl e => l = [] /\ e = ValueError
  end.
Proof.
  destruct l as [|x t]; simpl; [split; reflexivity|].
  destruct (fold_max_ge t x) as [L F]. split; [discriminate|].
  constructor; assumption.
Qed.

Lemma app_sep_inj (A : Type) (x : A) (a b r r' : list A) :
  ~ In x a -> ~ In x b -> a ++ x :: r = b ++ x :: r' -> a = b /\ r = r'.
Proof.
  revert b. induction a as [|y a IH]; intros [|z b] Na Nb E; simpl in *.
  - injection E as E. now split.
  - injection E as E1 E2. exfalso. apply Nb. now left.
  - injection E as E1 E2. exfalso. apply Na. now left.
  - injection E as E1 E2. subst z.
    destruct (IH b) as [E3 E4]; [tauto | tauto | exact E2 |].
    subst. now split.
Qed.

(* ===================================================================== *)
(** * Properties of formatter.py                                          *)
(* ===================================================================== *)

(** X6.  The vertical table of one record is never refused; it has five
    lines, each made of a label padded to 23 columns, the separator " : "
    and the decimal value of the field, in the order words,
    characters_no_space, characters_with_space, non_asian_words,
    asian_characters; and two records with the same table are equal. *)
Theorem X6_single_table (a b : Statistics.t) (ta tb : option Statistics.t) :
  (exists lines,
     Formatter.format_table (Formatter.Single a) ta = inr (join nl lines)
     /\ map (firstn 26) lines = map (fun l => ljust l 23 ++ colon) single_labels
     /\ map (skipn 26) lines = map str_int (field_values a))
  /\ (Formatter.format_table (Formatter.Single a) ta
      = Formatter.format_table (Formatter.Single b) tb -> a = b).
Proof.
  split.
  - eexists. split; [reflexivity|]. split; reflexivity.
  - intros E.
    assert (F : forall s t,
      Formatter.format_table (Formatter.Single s) t
      = inr ((ljust (nth 0 single_labels []) 23 ++ colon)
             ++ str_int (Statistics.words s) ++ 10%Z
             :: (ljust (nth 1 single_labels []) 23 ++ colon)
             ++ str_int (Statistics.characters_no_space s) ++ 10%Z
             :: (ljust (nth 2 single_labels []) 23 ++ colon)
             ++ str_int (Statistics.characters_with_space s) ++ 10%Z
             :: (ljust (nth 3 single_labels []) 23 ++ colon)
             ++ str_int (Statistics.non_asian_words s) ++ 10%Z
             :: (ljust (nth 4 single_labels []) 23 ++ colon)
             ++ str_int (Statistics.asian_characters s))) by reflexivity.
    rewrite !F in E. injection E as E. clear F.
    apply app_sep_inj in E as [E1 E]; try apply str_int_no_newline.
    injection E as E.
    apply app_sep_inj in E as [E2 E]; try apply str_int_no_newline.
    injection E as E.
    apply app_sep_inj in E as [E3 E]; try apply str_int_no_newline.
    injection E as E.
    apply app_sep_inj in E as [E4 E]; try apply str_int_no_newline.
    injection E as E.
    apply str_int_inj in E1, E2, E3, E4, E.
    destruct a, b. simpl in *. congruence.
Qed.

Lemma index_ok (A : Type) (l : list A) (i : nat) (d : A) :
  (i < length l)%nat -> Py.index l i = inr (nth i l d).
Proof.
  intros L. unfold Py.index.
  destruct (nth_error l i) eqn:E.
  - now rewrite (nth_error_nth l i d E).
  - apply nth_error_None in E. lia.
Qed.

Lemma table_rows_shape files total :
  Forall (fun row => length row = 6%nat) (Formatter.table_rows files total)
  /\ length (Formatter.table_rows files total)
     = (length files + has_total total)%nat.
Proof.
  unfold Formatter.table_rows. split.
  - apply Forall_app. split.
    + apply Forall_forall. intros row I. apply in_map_iff in I as (f & <- & _).
      reflexivity.
    + destruct total; repeat constructor.
  - rewrite length_app, length_map. destruct total; reflexivity.
Qed.

(** The width computed for column [i], when the computation succeeds. *)
Lemma column_width (rows : list (list text)) (i : nat) :
  Forall (fun row => length row = 6%nat) rows -> rows <> [] -> (i < 6)%nat ->
  exists m,
    (Py.bind (Py.index Formatter.headers i) (fun h =>
       Py.bind (mapM (fun row => Py.bind (Py.index row i)
                                   (fun c => ret (length c))) rows)
         (fun cells => Py.bind (max_of cells)
                         (fun m => ret (Nat.max (length h) m)))))
    = inr m
    /\ (length (nth i Formatter.headers []) <= m)%nat
    /\ Forall (fun row => (length (nth i row []) <= m)%nat) rows.
Proof.
  intros Six NE Li.
  rewrite (@index_ok _ Formatter.headers i []) by exact Li. cbn [Py.bind].
  rewrite (mapM_ok _ (fun row => length (nth i row []))).
  2:{ intros row I. rewrite Forall_forall in Six. specialize (Six row I).
      assert (Lr : (i < length row)%nat) by (unfold text in *; lia).
      rewrite (@index_ok _ row i [] Lr). reflexivity. }
  cbn [Py.bind].
  pose proof (max_of_spec (map (fun row => length (nth i row [])) rows)) as M.
  destruct (max_of _) as [e|m].
  - destruct M as [M _]. destruct rows; [now elim NE | discriminate M].
  - destruct M as [_ M]. cbn [Py.bind ret]. eexists. split; [reflexivity|].
    split; [lia|]. rewrite Forall_map in M.
    eapply Forall_impl; [|exact M]. simpl. intros; lia.
Qed.

Lemma table_widths_ok (rows : list (list text)) :
  Forall (fun row => length row = 6%nat) rows -> rows <> [] ->
  exists ws,
    Formatter.table_widths rows = inr ws
    /\ length ws = 6%nat
    /\ (forall i, (i < 6)%nat ->
          (length (nth i Formatter.headers []) <= nth i ws 0)%nat
          /\ Forall (fun row => (length (nth i row []) <= nth i ws 0)%nat) rows).
Proof.
  intros Six NE. unfold Formatter.table_widths.
  set (f := fun i : nat => _).
  set (g := fun i => match f i with inr m => m | inl _ => 0%nat end).
  assert (Fg : forall i, (i < 6)%nat -> f i = inr (g i)
            /\ (length (nth i Formatter.headers []) <= g i)%nat
            /\ Forall (fun row => (length (nth i row []) <= g i)%nat) rows).
  { intros i Li. destruct (column_width Six NE Li) as (m & E & P).
    unfold g. fold (f i) in E. rewrite E. split; [reflexivity | exact P]. }
  exists (map g (seq 0 6)). split; [|split].
  - apply mapM_ok. intros i I. apply in_seq in I. apply Fg. simpl in I. lia.
  - reflexivity.
  - intros i Li.
    replace (nth i (map g (seq 0 6)) 0%nat) with (g i).
    + apply Fg, Li.
    + do 6 (destruct i as [|i]; [reflexivity|]). lia.
Qed.

Lemma padded_lengths (cells : list text) (ws : list nat) :
  Forall2 (fun c w => (length c <= w)%nat) cells ws ->
  map (@length _) (map (fun cw => ljust (fst cw) (snd cw)) (combine cells ws)) = ws.
Proof.
  induction 1 as [|c w cells ws L F IH]; [reflexivity|].
  simpl. rewrite ljust_fits by exact L. f_equal. exact IH.
Qed.

Lemma table_line_ok (cells : list text) (ws : list nat) :
  Forall2 (fun c w => (length c <= w)%nat) cells ws ->
  exists line,
    Formatter.table_line cells ws = inr line
    /\ length line = (list_sum ws + 3 * (length ws - 1))%nat.
Proof.
  intros F. unfold Formatter.table_line.
  rewrite zip_strict_combine by (eapply Forall2_length; exact F).
  cbn [Py.bind ret]. eexists. split; [reflexivity|].
  rewrite join_length, (padded_lengths F), !length_map, length_combine.
  pose proof (Forall2_length F) as L.
  replace (Nat.min (length cells) (length ws)) with (length ws)
    by (unfold text in *; lia).
  reflexivity.
Qed.

Lemma fits_of_columns (cells : list text) (ws : list nat) :
  length cells = 6%nat -> length ws = 6%nat ->
  (forall i, (i < 6)%nat -> (length (nth i cells []) <= nth i ws 0)%nat) ->
  Forall2 (fun c w => (length c <= w)%nat) cells ws.
Proof.
  intros Lc Lw P.
  do 7 (destruct cells as [|? cells]; try discriminate Lc).
  do 7 (destruct ws as [|? ws]; try discriminate Lw).
  pose proof (P 0%nat). pose proof (P 1%nat). pose proof (P 2%nat).
  pose proof (P 3%nat). pose proof (P 4%nat). pose proof (P 5%nat).
  simpl in *. repeat constructor; auto with arith.
Qed.

Lemma table_lines_ok files total :
  files <> [] \/ total <> None ->
  exists lines n,
    Formatter.table_lines files total = inr lines
    /\ length lines = (2 + length files + has_total total)%nat
    /\ Forall (fun l => length l = n) lines.
Proof.
  intros NE. unfold Formatter.table_lines.
  destruct (table_rows_shape files total) as [Six Len].
  set (rows := Formatter.table_rows files total) in *.
  assert (RNE : rows <> []).
  { intros E. rewrite E in Len. simpl in Len.
    destruct NE as [NE|NE]; [destruct files; [now elim NE | simpl in Len; lia]|].
    destruct total; [simpl in Len; lia | now elim NE]. }
  destruct (table_widths_ok Six RNE) as (ws & Ew & Lw & Cols).
  cbv zeta. rewrite Ew. cbn [Py.bind].
  assert (FH : Forall2 (fun c w => (length c <= w)%nat) Formatter.headers ws)
    by (apply fits_of_columns; [reflexivity | exact Lw | intros i Li; apply Cols, Li]).
  destruct (table_line_ok FH) as (hl & Eh & Lh). rewrite Eh. cbn [Py.bind].
  set (n := (list_sum ws + 3 * (length ws - 1))%nat) in *.
  set (g := fun row => match Formatter.table_line row ws with
                       | inr l => l | inl _ => [] end).
  assert (Rg : forall row, In row rows ->
            Formatter.table_line row ws = inr (g row) /\ length (g row) = n).
  { intros row I.
    assert (FR : Forall2 (fun c w => (length c <= w)%nat) row ws).
    { rewrite Forall_forall in Six.
      apply fits_of_columns; [apply Six, I | exact Lw |].
      intros i Li. destruct (Cols i Li) as [_ C]. rewrite Forall_forall in C.
      apply C, I. }
    destruct (table_line_ok FR) as (l & El & Ll). unfold g. rewrite El.
    split; [reflexivity | exact Ll]. }
  rewrite (mapM_ok _ g) by (intros row I; apply Rg, I). cbn [Py.bind ret].
  exists (hl :: join (repeat 45%Z 1 ++ repeat 43%Z 1 ++ repeat 45%Z 1)
                  (map (fun w => repeat 45%Z w) ws) :: map g rows), n.
  split; [reflexivity|]. split.
  - cbn [length]. rewrite length_map, Len. lia.
  - constructor; [exact Lh|]. constructor.
    + rewrite join_length, map_map, length_map.
      rewrite (map_ext _ (fun w => w)) by (intros; apply repeat_length).
      rewrite map_id. reflexivity.
    + apply Forall_forall. intros l I. apply in_map_iff in I as (row & <- & I).
      apply Rg, I.
Qed.


(** X8.  The value that [format_json] serialises.  For one record it is
    the object of the five fields in the order of their declaration.  For
    several files it is an object whose key "files" holds one object per
    file, in order, with the file name under "file" followed by the five
    fields, none overwritten; the key "total" follows, and is present
    exactly when a total is given. *)
Theorem X8_json_value (dumps : json -> option Z -> text)
    (s : Statistics.t) (files : list (text * Statistics.t))
    (total : option Statistics.t) (indent : option Z) :
  let fields r := map (fun kv => (fst kv, JInt (snd kv))) (Statistics.to_dict r) in
  map snd (Statistics.to_dict s) = field_values s
  /\ Formatter.format_json dumps (Formatter.Single s) total indent
     = dumps (JObj (fields s)) indent
  /\ Formatter.format_json dumps (Formatter.Multiple files) total indent
     = dumps
         (JObj
            ((files_key,
              JArr (map (fun f => JObj ((file_key, JStr (fst f)) :: fields (snd f)))
                        files))
             :: match total with
                | Some t => [(total_key, JObj (fields t))]
                | None => []
                end))
         indent.
Proof.
  cbv zeta. split; [reflexivity|]. split; [reflexivity|].
  unfold Formatter.format_json. f_equal. cbn [Formatter.json_value].
  f_equal. destruct total; reflexivity.
Qed.

(* ===================================================================== *)
(** * Properties of cli.py                                                *)
(* ===================================================================== *)

Lemma add_zero_l a : Statistics.add (Statistics.mk 0 0 0 0 0) a = a.
Proof. destruct a. unfold Statistics.add. cbn. reflexivity. Qed.

Lemma add_zero_r a : Statistics.add a (Statistics.mk 0 0 0 0 0) = a.
Proof. destruct a. unfold Statistics.add. cbn. f_equal; lia. Qed.

Lemma add_comm a b : Statistics.add a b = Statistics.add b a.
Proof. destruct a, b. unfold Statistics.add. cbn. f_equal; lia. Qed.

Lemma add_assoc a b c :
  Statistics.add (Statistics.add a b) c = Statistics.add a (Statistics.add b c).
Proof. destruct a, b, c. unfold Statistics.add. cbn. f_equal; lia. Qed.

Lemma fold_add_shift (l : list Statistics.t) (a : Statistics.t) :
  fold_left Statistics.add l a
  = Statistics.add a (fold_left Statistics.add l (Statistics.mk 0 0 0 0 0)).
Proof.
  revert a. induction l as [|x l IH]; intros a; simpl.
  - now rewrite add_zero_r.
  - rewrite IH, (IH (Statistics.add _ x)), add_zero_l. apply add_assoc.
Qed.

Lemma fold_add_perm (l l' : list Statistics.t) (a : Statistics.t) :
  Permutation.Permutation l l' ->
  fold_left Statistics.add l a = fold_left Statistics.add l' a.
Proof.
  intros P. revert a. induction P; intros a; simpl.
  - reflexivity.
  - apply IHP.
  - f_equal. rewrite !add_assoc. f_equal. apply add_comm.
  - now rewrite IHP1.
Qed.

(** Each field of an accumulated total is the sum of that field. *)
Lemma fold_add_field (proj : Statistics.t -> Z) (l : list Statistics.t) :
  (forall a b, proj (Statistics.add a b) = (proj a + proj b)%Z) ->
  proj (Statistics.mk 0 0 0 0 0) = 0%Z ->
  proj (fold_left Statistics.add l (Statistics.mk 0 0 0 0 0))
  = Counter.sum (map proj l).
Proof.
  intros A Z. induction l as [|x l IH]; [exact Z|].
  simpl. rewrite fold_add_shift, A, IH, add_zero_l, sum_cons. reflexivity.
Qed.

Lemma mapM_inr_iff (A B : Type) (f : A -> result B) (l : list A) (ys : list B) :
  mapM f l = inr ys <-> Forall2 (fun x y => f x = inr y) l ys.
Proof.
  revert ys. induction l as [|x t IH]; intros ys; simpl.
  - split; [intros [= <-]; constructor | intros F; now inversion F].
  - split.
    + destruct (f x) as [e|y] eqn:E; simpl; [discriminate|].
      destruct (mapM f t) as [e|r] eqn:M; simpl; [discriminate|].
      intros [= <-]. constructor; [exact E | now apply IH].
    + intros F. inversion F as [|? y ? r Fx Ft]; subst.
      apply IH in Ft. rewrite Fx, Ft. reflexivity.
Qed.

Lemma mapM_inl_iff (A B : Type) (f : A -> result B) (l : list A) (e : exn) :
  mapM f l = inl e
  <-> exists pre x post,
        l = pre ++ x :: post
        /\ (forall y, In y pre -> exists b, f y = inr b)
        /\ f x = inl e.
Proof.
  induction l as [|x t IH]; simpl.
  - split; [discriminate|]. intros (pre & y & post & E & _). now destruct pre.
  - split.
    + destruct (f x) as [e'|b] eqn:Fx; simpl.
      * intros [= <-]. exists [], x, t. repeat split; [intros y []|exact Fx].
      * destruct (mapM f t) as [e'|r] eqn:M; simpl; [|discriminate].
        intros [= <-]. destruct (proj1 IH eq_refl) as (pre & y & post & -> & Ok & Fy).
        exists (x :: pre), y, post. repeat split; [|exact Fy].
        intros z [<-|I]; [eauto | now apply Ok].
    + intros (pre & y & post & E & Ok & Fy). destruct pre as [|p pre].
      * injection E as -> _. now rewrite Fy.
      * injection E as -> E.
        destruct (Ok p (or_introl eq_refl)) as (b & Fb). rewrite Fb. simpl.
        assert (X : mapM f t = inl e).
        { apply IH. exists pre, y, post. repeat split; auto.
          intros z I. apply Ok. now right. }
        now rewrite X.
Qed.

Lemma mapM_app (A B : Type) (f : A -> result B) (l1 l2 : list A) r1 r2 :
  mapM f l1 = inr r1 -> mapM f l2 = inr r2 -> mapM f (l1 ++ l2) = inr (r1 ++ r2).
Proof.
  rewrite !mapM_inr_iff. apply Forall2_app.
Qed.

Lemma mapM_perm (A B : Type) (f : A -> result B) (l l' : list A) r :
  Permutation.Permutation l l' -> mapM f l = inr r ->
  exists r', mapM f l' = inr r' /\ Permutation.Permutation r r'.
Proof.
  intros P. revert r. induction P; intros r E.
  - exists r. split; [exact E | apply Permutation.Permutation_refl].
  - apply mapM_inr_iff in E. inversion E as [|? y ? t Fx Ft]; subst.
    apply mapM_inr_iff in Ft. destruct (IHP _ Ft) as (t' & E' & P').
    exists (y :: t'). split; [|now constructor].
    apply mapM_inr_iff. constructor; [exact Fx | now apply mapM_inr_iff].
  - apply mapM_inr_iff in E. inversion E as [|? b1 ? t1 F1 Ft1]; subst.
    inversion Ft1 as [|? b2 ? t2 F2 Ft2]; subst.
    exists (b2 :: b1 :: t2). split; [|apply Permutation.perm_swap].
    apply mapM_inr_iff. repeat constructor; assumption.
  - destruct (IHP1 _ E) as (r1 & E1 & Q1). destruct (IHP2 _ E1) as (r2 & E2 & Q2).
    exists r2. split; [exact E2 | eapply Permutation.perm_trans; eassumption].
Qed.

Section ProcessFiles.
Context `{ScriptTable} `{Cli.Platform}.
Variable w : Cli.World.

Lemma process_files_loop_eq paths results total :
  Cli.process_files_loop w paths results total
  = match mapM (file_result w) paths with
    | inl e => inl e
    | inr rs => inr (results ++ rs, fold_left Statistics.add (map snd rs) total)
    end.
Proof.
  revert results total. induction paths as [|p paths IH]; intros results total.
  - simpl. now rewrite app_nil_r.
  - simpl. unfold file_result at 1. destruct (Cli.read_file w p) as [e|t]; simpl;
      [reflexivity|].
    rewrite IH. destruct (mapM (file_result w) paths) as [e|rs]; simpl;
      [reflexivity|].
    now rewrite <- app_assoc.
Qed.

Lemma process_files_eq paths :
  Cli.process_files w paths
  = match mapM (file_result w) paths with
    | inl e => inl e
    | inr rs =>
        inr (rs, fold_left Statistics.add (map snd rs) (Statistics.mk 0 0 0 0 0))
    end.
Proof. unfold Cli.process_files. now rewrite process_files_loop_eq. Qed.

Lemma file_result_inr p r :
  file_result w p = inr r
  <-> exists t, Cli.read_file w p = inr t
                /\ r = (Cli.path_str p, calculate_word_statistics t).
Proof.
  unfold file_result. destruct (Cli.read_file w p) as [e|t]; simpl.
  - split; [discriminate | intros (t & E & _); discriminate E].
  - split; [intros [= <-]; eauto | intros (t' & [= <-] & ->); reflexivity].
Qed.

Lemma file_result_inl p e :
  file_result w p = inl e <-> Cli.read_file w p = inl e.
Proof.
  unfold file_result. destruct (Cli.read_file w p) as [e'|t]; cbn [Py.bind ret];
    split; intros E; try discriminate E; injection E as ->; reflexivity.
Qed.

End ProcessFiles.

(** X9.  When [process_files] returns, the results list has one entry per
    path, in the order of the paths, holding [str(path)] and the record of
    the text read from it; the total is the sum of these records, so each
    field of the total is the sum of that field over the files. *)
Theorem X9_process_files_result `{ScriptTable} `{Cli.Platform} (w : Cli.World)
    (paths : list Cli.Path) (results : list (text * Statistics.t))
    (total : Statistics.t) :
  Cli.process_files w paths = inr (results, total) ->
  Forall2 (fun p r => exists t, Cli.read_file w p = inr t
                                /\ r = (Cli.path_str p, calculate_word_statistics t))
          paths results
  /\ total = fold_left Statistics.add (map snd results) (Statistics.mk 0 0 0 0 0)
  /\ field_values total
     = map (fun proj => Counter.sum (map proj (map snd results)))
         [ Statistics.words; Statistics.characters_no_space;
           Statistics.characters_with_space; Statistics.non_asian_words;
           Statistics.asian_characters ].
Proof.
  rewrite process_files_eq. destruct (mapM (file_result w) paths) as [e|rs] eqn:M;
    [discriminate|].
  intros [= <- <-]. split; [|split].
  - apply mapM_inr_iff in M. eapply Forall2_impl; [|exact M].
    intros p r. apply file_result_inr.
  - reflexivity.
  - unfold field_values. cbn [map].
    rewrite !fold_add_field by (intros; reflexivity). reflexivity.
Qed.

Lemma X9_process_files_result_witness :
  let paths := [name_ab; name_c] : list (@Cli.Path plain_platform) in
  let ra := @calculate_word_statistics unicode14 (name_ab) in
  let rc := @calculate_word_statistics unicode14 (name_c) in
  Forall2 (fun p r => exists t, Cli.read_file echo_world p = inr t
             /\ r = (Cli.path_str p, @calculate_word_statistics unicode14 t))
          paths [(name_ab, ra); (name_c, rc)]
  /\ Statistics.add (Statistics.add (Statistics.mk 0 0 0 0 0) ra) rc
     = fold_left Statistics.add (map snd [(name_ab, ra); (name_c, rc)])
         (Statistics.mk 0 0 0 0 0)
  /\ field_values (Statistics.add (Statistics.add (Statistics.mk 0 0 0 0 0) ra) rc)
     = map (fun proj => Counter.sum
                          (map proj (map snd [(name_ab, ra); (name_c, rc)])))
         [ Statistics.words; Statistics.characters_no_space;
           Statistics.characters_with_space; Statistics.non_asian_words;
           Statistics.asian_characters ].
Proof.
  intros paths ra rc.
  apply (@X9_process_files_result unicode14 plain_platform echo_world paths).
  reflexivity.
Defined.

(** X10.  [process_files] raises exactly when some file cannot be read,
    and then raises what the first such file raised: files after it are
    not looked at, and no result is returned for the files before it. *)
Theorem X10_process_files_failure `{ScriptTable} `{Cli.Platform} (w : Cli.World)
    (paths : list Cli.Path) (e : exn) :
  Cli.process_files w paths = inl e
  <-> exists pre p post,
        paths = pre ++ p :: post
        /\ (forall q, In q pre -> exists t, Cli.read_file w q = inr t)
        /\ Cli.read_file w p = inl e.
Proof.
  rewrite process_files_eq.
  destruct (mapM (file_result w) paths) as [e'|rs] eqn:M.
  - split.
    + intros [= <-]. apply mapM_inl_iff in M as (pre & p & post & E & Ok & F).
      exists pre, p, post. repeat split; [exact E | | now apply file_result_inl].
      intros q I. destruct (Ok q I) as (r & R).
      apply file_result_inr in R as (t & R & _). eauto.
    + intros (pre & p & post & E & Ok & F). f_equal.
      assert (X : mapM (file_result w) paths = inl e).
      { apply mapM_inl_iff. exists pre, p, post. repeat split;
          [exact E | | now apply file_result_inl].
        intros q I. destruct (Ok q I) as (t & R). eexists.
        apply file_result_inr. eauto. }
      congruence.
  - split; [discriminate|].
    intros (pre & p & post & E & Ok & F). exfalso.
    assert (X : mapM (file_result w) paths = inl e).
    { apply mapM_inl_iff. exists pre, p, post. repeat split;
        [exact E | | now apply file_result_inl].
      intros q I. destruct (Ok q I) as (t & R). eexists.
      apply file_result_inr. eauto. }
    congruence.
Qed.

(** X11.  The total does not depend on the order of the files: when
    [process_files] returns for a list of paths, it returns for every
    rearrangement of the list, with the same total and the results
    rearranged. *)
Theorem X11_process_files_order `{ScriptTable} `{Cli.Platform} (w : Cli.World)
    (paths paths' : list Cli.Path) (results : list (text * Statistics.t))
    (total : Statistics.t) :
  Permutation paths paths' ->
  Cli.process_files w paths = inr (results, total) ->
  exists results',
    Cli.process_files w paths' = inr (results', total)
    /\ Permutation results results'.
Proof.
  intros P. rewrite !process_files_eq.
  destruct (mapM (file_result w) paths) as [e|rs] eqn:M; [discriminate|].
  intros [= <- <-]. destruct (mapM_perm _ P M) as (rs' & M' & P').
  exists rs'. rewrite M'. split; [|exact P'].
  do 2 f_equal. apply fold_add_perm. apply Permutation_map.
  now apply Permutation_sym.
Qed.

Lemma X11_process_files_order_witness :
  let ra := @calculate_word_statistics unicode14 (name_ab) in
  let rc := @calculate_word_statistics unicode14 (name_c) in
  exists results',
    @Cli.process_files unicode14 plain_platform echo_world [name_c; name_ab]
    = inr (results', Statistics.add (Statistics.add (Statistics.mk 0 0 0 0 0) ra) rc)
    /\ Permutation [(name_ab, ra); (name_c, rc)] results'.
Proof.
  intros ra rc.
  apply (@X11_process_files_order unicode14 plain_platform echo_world
           [name_ab; name_c] [name_c; name_ab]).
  - apply perm_swap.
  - reflexivity.
Defined.

(** X12.  Processing two lists of files one after the other: when
    [process_files] returns for each list, it returns for the two put
    together, with the results put together and the totals added. *)
Theorem X12_process_files_append `{ScriptTable} `{Cli.Platform} (w : Cli.World)
    (p1 p2 : list Cli.Path) (r1 r2 : list (text * Statistics.t))
    (t1 t2 : Statistics.t) :
  Cli.process_files w p1 = inr (r1, t1) ->
  Cli.process_files w p2 = inr (r2, t2) ->
  Cli.process_files w (p1 ++ p2) = inr (r1 ++ r2, Statistics.add t1 t2).
Proof.
  rewrite !process_files_eq.
  destruct (mapM (file_result w) p1) as [e|rs1] eqn:M1; [discriminate|].
  destruct (mapM (file_result w) p2) as [e|rs2] eqn:M2; [discriminate|].
  intros [= <- <-] [= <- <-]. rewrite (mapM_app _ _ _ M1 M2).
  do 2 f_equal. rewrite map_app, fold_left_app. apply fold_add_shift.
Qed.

Lemma X12_process_files_append_witness :
  let ra := @calculate_word_statistics unicode14 (name_ab) in
  let rc := @calculate_word_statistics unicode14 (name_c) in
  @Cli.process_files unicode14 plain_platform echo_world ([name_ab] ++ [name_c])
  = inr ([(name_ab, ra)] ++ [(name_c, rc)],
         Statistics.add (Statistics.add (Statistics.mk 0 0 0 0 0) ra)
                        (Statistics.add (Statistics.mk 0 0 0 0 0) rc)).
Proof.
  intros ra rc.
  apply (@X12_process_files_append unicode14 plain_platform echo_world
           [name_ab] [name_c]); reflexivity.
Defined.

Section Run.
Context `{ScriptTable} `{Cli.Platform}.
Variable w : Cli.World.

Lemma single_table_ok s : exists out, Formatter._format_single_table s = inr out.
Proof. eexists. reflexivity. Qed.

Lemma multiple_table_ok files t :
  exists out, Formatter._format_multiple_table files (Some t) = inr out.
Proof.
  unfold Formatter._format_multiple_table.
  destruct (@table_lines_ok files (Some t)) as (lines & n & E & _);
    [right; discriminate|].
  rewrite E. eexists. reflexivity.
Qed.

(** Rendering one record, or several results with their total, prints one
    line and does not raise. *)
Lemma render_ok fmt stats total o :
  (exists s, stats = Formatter.Single s)
  \/ (exists files t, stats = Formatter.Multiple files /\ total = Some t) ->
  exists line, Cli._render_output fmt stats total o = (printed o line, inr tt).
Proof.
  intros Shape. unfold Cli._render_output.
  assert (T : exists out, Formatter.format_table stats total = inr out).
  { destruct Shape as [(s & ->)|(files & t & -> & ->)]; simpl;
      [apply single_table_ok | apply multiple_table_ok]. }
  destruct T as (out & T).
  destruct fmt; unfold Cli.bindM, Cli.liftM, Cli.print; rewrite ?T;
    eexists; reflexivity.
Qed.

Lemma normalize_input_shape args results tot :
  Cli.normalize_input w args = inr (results, tot) ->
  results <> []
  /\ ((length (Cli.files args) <= 1)%nat ->
      exists name, results = [(name, tot)]).
Proof.
  unfold Cli.normalize_input. destruct (Cli.files args) as [|f fs].
  - unfold Cli.read_stdin. destruct (Cli.stdin_read w); simpl; [discriminate|].
    intros [= <- <-]. split; [discriminate | eauto].
  - rewrite process_files_eq.
    destruct (mapM (file_result w) (map Cli.mkPath (f :: fs))) as [e|rs] eqn:M;
      [discriminate|].
    intros [= <- <-]. apply mapM_inr_iff in M.
    inversion M as [|? r ? rs' Fr Frs]; subst. split; [discriminate|].
    intros L. simpl in L. destruct fs; [|simpl in L; lia].
    inversion Frs; subst. simpl. rewrite add_zero_l. destruct r. eauto.
Qed.

(** When the input could be read, [run] prints one line on standard
    output and returns 0. *)
Lemma run_success args o results tot :
  Cli.normalize_input w args = inr (results, tot) ->
  exists line, Cli.run w args o = (printed o line, inr 0%Z).
Proof.
  intros E. destruct (normalize_input_shape _ E) as [NE _].
  unfold Cli.run, Cli.run_body.
  set (fmt := match Cli.format args with
              | Cli.auto_format => _ | f => f end). clearbody fmt.
  unfold Cli.bindM at 1 2 3, Cli.tryM, Cli.liftM at 1. rewrite E.
  cbn [fst snd].
  assert (Target : exists target,
    (if Cli.total args || (1 <? length results)%nat
     then Cli.retM tot
     else Cli.liftM (Py.bind (Py.index results 0) (fun r => ret (snd r)))) o
    = (o, inr target)).
  { destruct (Cli.total args || (1 <? length results)%nat);
      [eexists; reflexivity|].
    destruct results as [|r results]; [now elim NE|]. eexists. reflexivity. }
  destruct Target as (target & ->).
  destruct (Cli.get_single_value target args) as [v|].
  - eexists. reflexivity.
  - unfold Cli.bindM.
    match goal with
    | |- context [(if ?c then ?a else ?b) o] =>
        assert (R : exists line, (if c then a else b) o = (printed o line, inr tt))
    end.
    { destruct (Cli.total args || (length results =? 1)%nat);
        apply render_ok; [left|right]; eauto. }
    destruct R as (line & ->). eexists. reflexivity.
Qed.

(** When the input could not be read, [run] prints nothing on standard
    output and answers the exception by its handler, if it has one. *)
Lemma run_failure args o e :
  Cli.normalize_input w args = inl e ->
  Cli.stdout (fst (Cli.run w args o)) = Cli.stdout o
  /\ snd (Cli.run w args o)
     = match exit_code_of e with Some c => inr c | None => inl e end
  /\ (if writes_error e
      then exists line,
             Cli.stderr (fst (Cli.run w args o)) = Cli.stderr o ++ line ++ nl
      else Cli.stderr (fst (Cli.run w args o)) = Cli.stderr o)
  /\ Cli.stderr_closed (fst (Cli.run w args o))
     = match e with BrokenPipeError => true | _ => Cli.stderr_closed o end.
Proof.
  intros E. unfold Cli.run, Cli.run_body.
  set (fmt := match Cli.format args with
              | Cli.auto_format => _ | f => f end). clearbody fmt.
  unfold Cli.bindM at 1 2, Cli.tryM, Cli.liftM at 1. rewrite E.
  destruct e;
    unfold Cli.bindM, Cli.eprint, Cli.close_stderr, Cli.retM, Cli.liftM;
    cbn [fst snd Cli.stdout Cli.stderr Cli.stderr_closed exit_code_of
         writes_error];
    repeat split; try (eexists; unfold nl; reflexivity).
Qed.

End Run.

(** X13.  When every input can be read (the files, or standard input when
    no file is named), [run] returns 0, writes exactly one line more to
    standard output, and leaves standard error as it was; in particular
    neither [results[0]] nor the table can fail. *)
Theorem X13_run_success `{ScriptTable} `{Cli.Platform} (w : Cli.World)
    (args : Cli.Namespace) (o : Cli.io)
    (results : list (text * Statistics.t)) (tot : Statistics.t) :
  Cli.normalize_input w args = inr (results, tot) ->
  exists line,
    Cli.run w args o
    = ({| Cli.stdout := Cli.stdout o ++ line ++ nl;
          Cli.stderr := Cli.stderr o;
          Cli.stderr_closed := Cli.stderr_closed o |}, inr 0%Z).
Proof. intros E. exact (run_success w args o E). Qed.

Lemma X13_run_success_witness :
  exists line,
    @Cli.run unicode14 plain_platform echo_world (plain_args [name_ab; name_c])
      Cli.io_empty
    = ({| Cli.stdout := Cli.stdout Cli.io_empty ++ line ++ nl;
          Cli.stderr := Cli.stderr Cli.io_empty;
          Cli.stderr_closed := Cli.stderr_closed Cli.io_empty |}, inr 0%Z).
Proof.
  eapply (@X13_run_success unicode14 plain_platform echo_world
            (plain_args [name_ab; name_c]) Cli.io_empty).
  reflexivity.
Defined.

(** X14.  When an input cannot be read, [run] writes nothing to standard
    output, whatever was read before.  It returns 1 for a missing file, a
    directory, a refused permission or text that is not UTF-8, 130 for a
    keyboard interrupt, and writes one message to standard error in these
    five cases; it returns 0 and closes standard error for a broken pipe;
    every other exception escapes. *)
Theorem X14_run_failure `{ScriptTable} `{Cli.Platform} (w : Cli.World)
    (args : Cli.Namespace) (o : Cli.io) (e : exn) :
  Cli.normalize_input w args = inl e ->
  Cli.stdout (fst (Cli.run w args o)) = Cli.stdout o
  /\ snd (Cli.run w args o)
     = match exit_code_of e with Some c => inr c | None => inl e end
  /\ (if writes_error e
      then exists line,
             Cli.stderr (fst (Cli.run w args o)) = Cli.stderr o ++ line ++ nl
      else Cli.stderr (fst (Cli.run w args o)) = Cli.stderr o)
  /\ Cli.stderr_closed (fst (Cli.run w args o))
     = match e with BrokenPipeError => true | _ => Cli.stderr_closed o end.
Proof. intros E. exact (run_failure w args o E). Qed.

Lemma X14_run_failure_witness :
  let r := @Cli.run unicode14 plain_platform echo_world
             (plain_args [name_ab; name_missing; name_c]) Cli.io_empty in
  Cli.stdout (fst r) = []
  /\ snd r = inr 1%Z
  /\ (exists line, Cli.stderr (fst r) = [] ++ line ++ nl)
  /\ Cli.stderr_closed (fst r) = false.
Proof.
  exact (@X14_run_failure unicode14 plain_platform echo_world
           (plain_args [name_ab; name_missing; name_c]) Cli.io_empty
           (FileNotFoundError name_missing) eq_refl).
Defined.

(** X15.  With at most one file named (one file, or standard input), the
    option [--total] changes nothing: [run] writes the same output and
    returns the same code with and without it. *)
Theorem X15_total_irrelevant_for_one_input `{ScriptTable} `{Cli.Platform}
    (w : Cli.World) (args : Cli.Namespace) (o : Cli.io) :
  (length (Cli.files args) <= 1)%nat ->
  Cli.run w (with_total true args) o = Cli.run w (with_total false args) o.
Proof.
  intros L.
  assert (N : forall b, Cli.normalize_input w (with_total b args)
                        = Cli.normalize_input w args) by reflexivity.
  destruct (Cli.normalize_input w args) as [e|[results tot]] eqn:E.
  - unfold Cli.run, Cli.run_body.
    unfold Cli.bindM, Cli.tryM, Cli.liftM.
    rewrite !N. reflexivity.
  - destruct (normalize_input_shape w _ E) as [_ S].
    destruct (S L) as (name & ->).
    unfold Cli.run, Cli.run_body.
    unfold Cli.bindM, Cli.tryM, Cli.liftM.
    rewrite !N. reflexivity.
Qed.

Lemma X15_total_irrelevant_for_one_input_witness :
  @Cli.run unicode14 plain_platform echo_world
    (with_total true (plain_args [name_ab])) Cli.io_empty
  = @Cli.run unicode14 plain_platform echo_world
      (with_total false (plain_args [name_ab])) Cli.io_empty.
Proof.
  apply (@X15_total_irrelevant_for_one_input unicode14 plain_platform echo_world
           (plain_args [name_ab]) Cli.io_empty).
  simpl. lia.
Defined.

(** X16.  [run] returns only 0, 1 or 130, and an exception escapes from it
    only when reading the input raised one for which it has no handler;
    formatting never makes it fail. *)
Theorem X16_run_outcomes `{ScriptTable} `{Cli.Platform} (w : Cli.World)
    (args : Cli.Namespace) (o : Cli.io) :
  match snd (Cli.run w args o) with
  | inr code => code = 0%Z \/ code = 1%Z \/ code = 130%Z
  | inl e => exit_code_of e = None /\ Cli.normalize_input w args = inl e
  end.
Proof.
  destruct (Cli.normalize_input w args) as [e|[results tot]] eqn:E.
  - destruct (run_failure w args o E) as (_ & -> & _).
    destruct e; simpl; auto.
  - destruct (run_success w args o E) as (line & ->). simpl. auto.
Qed.

(** X17.  With the option [--words] and two or more files that can all be
    read, [run] prints one bare integer, the sum of the word counts of the
    files, and returns 0. *)
Theorem X17_words_of_several_files `{ScriptTable} `{Cli.Platform}
    (w : Cli.World) (args : Cli.Namespace) (o : Cli.io)
    (results : list (text * Statistics.t)) (tot : Statistics.t) :
  Cli.words args = true ->
  (2 <= length (Cli.files args))%nat ->
  Cli.process_files w (map Cli.mkPath (Cli.files args)) = inr (results, tot) ->
  Cli.run w args o
  = (printed o (str_int (Counter.sum (map (fun r => Statistics.words (snd r))
                                          results))),
     inr 0%Z).
Proof.
  intros W L E.
  assert (N : Cli.normalize_input w args = inr (results, tot)).
  { unfold Cli.normalize_input. destruct (Cli.files args); [simpl in L; lia|].
    exact E. }
  assert (Len : length results = length (Cli.files args)).
  { rewrite process_files_eq in E.
    destruct (mapM _ _) as [e|rs] eqn:M; [discriminate|].
    injection E as <- _. apply mapM_inr_iff, Forall2_length in M.
    now rewrite <- M, length_map. }
  assert (T : Statistics.words tot
              = Counter.sum (map (fun r => Statistics.words (snd r)) results)).
  { rewrite process_files_eq in E.
    destruct (mapM _ _) as [e|rs] eqn:M; [discriminate|].
    injection E as <- <-. rewrite <- (map_map snd Statistics.words).
    apply (@fold_add_field Statistics.words (map snd rs)); reflexivity. }
  unfold Cli.run, Cli.run_body.
  unfold Cli.bindM at 1 2 3, Cli.tryM, Cli.liftM at 1. rewrite N. cbn [fst snd].
  replace (1 <? length results)%nat with true
    by (symmetry; apply Nat.ltb_lt; lia).
  rewrite orb_true_r. unfold Cli.retM at 1.
  unfold Cli.get_single_value. rewrite W, T. reflexivity.
Qed.

Lemma X17_words_of_several_files_witness :
  let args := {| Cli.files := [name_ab; name_c]; Cli.format := Cli.auto_format;
                 Cli.total := false; Cli.words := true; Cli.chars := false;
                 Cli.chars_with_space := false; Cli.asian := false;
                 Cli.non_asian := false |} in
  let ra := @calculate_word_statistics unicode14 name_ab in
  let rc := @calculate_word_statistics unicode14 name_c in
  @Cli.run unicode14 plain_platform echo_world args Cli.io_empty
  = (printed Cli.io_empty
       (str_int (Counter.sum (map (fun r => Statistics.words (snd r))
                                  [(name_ab, ra); (name_c, rc)]))),
     inr 0%Z).
Proof.
  intros args ra rc.
  apply (@X17_words_of_several_files unicode14 plain_platform echo_world args
           Cli.io_empty [(name_ab, ra); (name_c, rc)]
           (Statistics.add (Statistics.add (Statistics.mk 0 0 0 0 0) ra) rc)).
  - reflexivity.
  - simpl. lia.
  - reflexivity.
Defined.

Lemma normalize_one_input `{ScriptTable} `{Cli.Platform} (w : Cli.World)
    (args : Cli.Namespace) (t : text) :
  (Cli.files args = [] /\ Cli.read_stdin w = inr t)
  \/ (exists f, Cli.files args = [f] /\ Cli.read_file w (Cli.mkPath f) = inr t) ->
  exists name,
    Cli.normalize_input w args
    = inr ([(name, calculate_word_statistics t)], calculate_word_statistics t).
Proof.
  unfold Cli.normalize_input. intros [[-> R]|(f & -> & R)].
  - rewrite R. eexists. reflexivity.
  - cbn [map]. unfold Cli.process_files. cbn [Cli.process_files_loop].
    rewrite R. cbn [Py.bind ret app]. rewrite add_zero_l. eexists. reflexivity.
Qed.

(** X18.  For one input (standard input, or one file) that can be read,
    the single-value options print the result of the standalone functions
    on the text read: [--words] prints [count_words], [--chars] prints
    [count_characters], [--chars-with-space] prints
    [count_characters_with_space]; each as one bare integer, with exit
    code 0, whether or not [--total] is given. *)
Theorem X18_single_value_of_one_input `{ScriptTable} `{Cli.Platform}
    (w : Cli.World) (args : Cli.Namespace) (o : Cli.io) (t : text) :
  (Cli.files args = [] /\ Cli.read_stdin w = inr t)
  \/ (exists f, Cli.files args = [f] /\ Cli.read_file w (Cli.mkPath f) = inr t) ->
  (Cli.words args = true ->
   Cli.run w args o = (printed o (str_int (count_words t)), inr 0%Z))
  /\ (Cli.words args = false -> Cli.chars args = true ->
      Cli.run w args o = (printed o (str_int (count_characters t)), inr 0%Z))
  /\ (Cli.words args = false -> Cli.chars args = false ->
      Cli.chars_with_space args = true ->
      Cli.run w args o
      = (printed o (str_int (count_characters_with_space t)), inr 0%Z)).
Proof.
  intros In1. destruct (normalize_one_input w args In1) as (name & N).
  assert (R : forall v,
    Cli.get_single_value (calculate_word_statistics t) args = Some v ->
    Cli.run w args o = (printed o (str_int v), inr 0%Z)).
  { intros v G. unfold Cli.run, Cli.run_body.
    unfold Cli.bindM at 1 2 3, Cli.tryM, Cli.liftM at 1. rewrite N.
    cbn [fst snd length]. destruct (Cli.total args); cbn; rewrite G; reflexivity. }
  repeat split; intros; apply R; unfold Cli.get_single_value;
    repeat match goal with E : _ = _ |- _ => rewrite E; clear E end;
    reflexivity.
Qed.

Lemma X18_single_value_of_one_input_witness :
  let args := {| Cli.files := []; Cli.format := Cli.auto_format;
                 Cli.total := false; Cli.words := true; Cli.chars := false;
                 Cli.chars_with_space := false; Cli.asian := false;
                 Cli.non_asian := false |} in
  @Cli.run unicode14 plain_platform echo_world args Cli.io_empty
  = (printed Cli.io_empty
       (str_int (@count_words unicode14
                   (match Cli.stdin_read echo_world with
                    | inr t => t | inl _ => [] end))),
     inr 0%Z).
Proof.
  intros args.
  refine (proj1 (@X18_single_value_of_one_input unicode14 plain_platform
                   echo_world args Cli.io_empty _ _) eq_refl).
  left. split; reflexivity.
Defined.
